(** * Ecosol: the AI-response orchestration layer of [services/geminiService.ts]

    A shallow embedding of the service module: the error wrapper
    [safeGenAIRequest], the truncation repair [tryRepairJson], the grounding
    extraction and the three JSON task operations [getEnvironmentalSolution],
    [generateSustainabilityPlan] and [getEcoStatus].

    JavaScript strings are modelled as [string] (code units below 256).
    Exceptions, console output and the calls of interest are threaded through
    a small trace-and-error monad.  The engine's [JSON.parse] and the SDK's
    [generateContent] are the two fields of the [Platform] class, so every
    general statement holds for any engine and any backend; a reference
    [JSON.parse] following the ECMA-404 grammar runs the operations on
    concrete responses. *)

From Stdlib Require Import String Ascii List Bool Arith Lia.
Import ListNotations.
Local Open Scope list_scope.
Local Open Scope string_scope.
Local Open Scope nat_scope.
Set Warnings "-register-all".

(** ** JavaScript string primitives *)

Module JsString.

(** The double-quote character, code unit 34. *)
Definition dquote : ascii := "034"%char.
Definition dq : string := String dquote EmptyString.

(** Sample texts are written with an apostrophe where the JavaScript text has
    a double quote; [js] puts the double quotes back. *)
Fixpoint js (s : string) : string :=
  match s with
  | EmptyString => EmptyString
  | String c s' => String (if Ascii.eqb c "'"%char then dquote else c) (js s')
  end.

(** ECMAScript WhiteSpace and LineTerminator code units below 256:
    TAB, LF, VT, FF, CR, SP and NBSP.  These are what [String.prototype.trim]
    strips. *)
Definition isWhiteSpace (c : ascii) : bool :=
  let n := nat_of_ascii c in
  (n =? 9) || (n =? 10) || (n =? 11) || (n =? 12) || (n =? 13)
  || (n =? 32) || (n =? 160).

Fixpoint all_ws (s : string) : bool :=
  match s with
  | EmptyString => true
  | String c s' => isWhiteSpace c && all_ws s'
  end.

Fixpoint trimStart (s : string) : string :=
  match s with
  | EmptyString => EmptyString
  | String c s' => if isWhiteSpace c then trimStart s' else s
  end.

Fixpoint trimEnd (s : string) : string :=
  match s with
  | EmptyString => EmptyString
  | String c s' =>
      match trimEnd s' with
      | EmptyString => if isWhiteSpace c then EmptyString else String c EmptyString
      | t => String c t
      end
  end.

(** [s.trim()] *)
Definition trim (s : string) : string := trimEnd (trimStart s).

(** [s.endsWith(suffix)]: some tail of [s] is [suffix]. *)
Fixpoint endsWith (s suffix : string) : bool :=
  (s =? suffix)%string ||
  match s with
  | EmptyString => false
  | String _ s' => endsWith s' suffix
  end.

(** [s.includes(t)]: [t] is a prefix of some tail of [s]. *)
Fixpoint includes (s t : string) : bool :=
  prefix t s ||
  match s with
  | EmptyString => false
  | String _ s' => includes s' t
  end.

(** [(s.match(/c/g) || []).length] for a one-character pattern: the number of
    occurrences of [c] in [s]. *)
Fixpoint match_count (c : ascii) (s : string) : nat :=
  match s with
  | EmptyString => 0
  | String d s' => (if Ascii.eqb d c then 1 else 0) + match_count c s'
  end.

(** Decimal rendering of a number, as string conversion of an index does. *)
Definition digit (n : nat) : ascii := ascii_of_nat (48 + n).

Fixpoint decimal_fuel (fuel n : nat) (acc : string) : string :=
  match fuel with
  | 0 => acc
  | S f =>
      let acc' := String (digit (n mod 10)) acc in
      if n <? 10 then acc' else decimal_fuel f (n / 10) acc'
  end.

Definition decimal (n : nat) : string := decimal_fuel (S n) n EmptyString.

Fixpoint repeat_char (c : ascii) (n : nat) : string :=
  match n with
  | 0 => EmptyString
  | S k => String c (repeat_char c k)
  end.

End JsString.
Import JsString.

(** ** The JSON repair engine *)

(** [tryRepairJson], lines 26-44 of the service.  The comparison [a > b] of
    the two counts is written [b <? a]. *)
Definition tryRepairJson (jsonStr : string) : string :=
  let cleaned := trim jsonStr in
  if negb (endsWith cleaned "}") then
    let cleaned :=
      if endsWith cleaned dq then cleaned else cleaned ++ dq in
    let cleaned :=
      if match_count "]" cleaned <? match_count "[" cleaned
      then cleaned ++ "]" else cleaned in
    let cleaned :=
      if match_count "}" cleaned <? match_count "{" cleaned
      then cleaned ++ "}" else cleaned in
    cleaned
  else cleaned.

(** An optional appended token. *)
Definition appended (b : bool) (tok : string) : string :=
  if b then tok else EmptyString.

(** ** JavaScript values, exceptions and effects *)

(** Values produced by [JSON.parse].  A number keeps its source lexeme: its
    floating-point value plays no part in the service. *)
Inductive Json : Type :=
| JNull
| JBool (b : bool)
| JNumber (lexeme : string)
| JString (s : string)
| JArray (items : list Json)
| JObject (fields : list (string * Json)).

(** A thrown value: its constructor name and its [message] property, [None]
    when the value carries no (or an empty) message. *)
Record JsError : Type := mkError {
  err_name : string;
  err_message : option string
}.

(** [new Error(msg)] and the [SyntaxError] of [JSON.parse]. *)
Definition new_Error (msg : string) : JsError := mkError "Error" (Some msg).
Definition new_SyntaxError (msg : string) : JsError :=
  mkError "SyntaxError" (Some msg).

(** How a call completes: normally with a value, or abruptly with a throw. *)
Inductive Completion (A : Type) : Type :=
| Normal (v : A)
| Throw (e : JsError).
Arguments Normal {A} v.
Arguments Throw {A} e.

Module JsObject.

(** Own properties as an association list, read by key; the order in which
    JavaScript enumerates properties is not modelled. *)
Definition props : Type := list (string * Json).

Fixpoint get (o : props) (k : string) : option Json :=
  match o with
  | [] => None
  | (k', v) :: o' => if String.eqb k' k then Some v else get o' k
  end.

(** Assignment to a property: overwrite in place, else add at the end. *)
Fixpoint set (o : props) (k : string) (v : Json) : props :=
  match o with
  | [] => [(k, v)]
  | (k', v') :: o' =>
      if String.eqb k' k then (k', v) :: o' else (k', v') :: set o' k v
  end.

Fixpoint indexed_from (i : nat) (items : list Json) : props :=
  match items with
  | [] => []
  | x :: items' => (decimal i, x) :: indexed_from (S i) items'
  end.

Fixpoint chars (s : string) : list Json :=
  match s with
  | EmptyString => []
  | String c s' => JString (String c EmptyString) :: chars s'
  end.

(** The own enumerable properties copied by an object spread [{...v}]:
    those of an object, the indexed elements of an array or of a string,
    nothing for [null], booleans and numbers. *)
Definition spread (v : Json) : props :=
  match v with
  | JObject fields => fields
  | JArray items => indexed_from 0 items
  | JString s => indexed_from 0 (chars s)
  | _ => []
  end.

End JsObject.

(** ** The generation backend's request and response shapes *)

Inductive Schema : Type :=
| TString
| TInteger
| TEnum (values : list string)
| TArray (items : Schema)
| TObject (properties : list (string * Schema)) (required : list string).

Inductive Tool : Type := googleSearch.

Record Config : Type := mkConfig {
  tools : list Tool;
  thinkingBudget : option nat;
  responseMimeType : string;
  responseSchema : Schema
}.

Record Request : Type := mkRequest {
  model : string;
  contents : string;
  config : Config
}.

Record Web : Type := mkWeb {
  uri : option string;
  title : option string
}.

Record GroundingChunk : Type := mkChunk { web : option Web }.

Record GroundingMetadata : Type := mkMetadata {
  groundingChunks : option (list GroundingChunk)
}.

Record Candidate : Type := mkCandidate {
  groundingMetadata : option GroundingMetadata
}.

Record Response : Type := mkResponse {
  text : option string;
  candidates : option (list Candidate)
}.

Record GroundingSource : Type := mkSource {
  src_title : string;
  src_uri : string
}.

(** [enum Category] and [type SectionType] of [types.ts]. *)
Inductive Category : Type :=
| CLIMATE_CHANGE | WATER | AIR | NOISE_GLOBAL | VISION.

Definition Category_value (c : Category) : string :=
  match c with
  | CLIMATE_CHANGE => "Climate Change"
  | WATER => "Water"
  | AIR => "Air"
  | NOISE_GLOBAL => "Noise & Global Change"
  | VISION => "Eco Vision"
  end.

(** [Object.values(Category)] *)
Definition Category_values : list string :=
  map Category_value [CLIMATE_CHANGE; WATER; AIR; NOISE_GLOBAL; VISION].

Inductive SectionType : Type :=
| Climate | Water | Air | Noise | Vision.

Definition SectionType_string (s : SectionType) : string :=
  match s with
  | Climate => "Climate"
  | Water => "Water"
  | Air => "Air"
  | Noise => "Noise"
  | Vision => "Vision"
  end.

(** ** Effects: a trace of observable calls, and exceptions *)

Inductive Event : Type :=
| EvGenerate (req : Request)      (* ai.models.generateContent(req) *)
| EvParse (input : string)        (* JSON.parse(input) *)
| EvRepair (input : string)       (* tryRepairJson(input) *)
| EvWarn (label : string) (e : JsError)     (* console.warn *)
| EvError (label : string) (e : JsError).   (* console.error *)

Module Eff.

Definition M (A : Type) : Type := (list Event * Completion A)%type.

Definition ret {A} (v : A) : M A := ([], Normal v).

Definition throw {A} (e : JsError) : M A := ([], Throw e).

Definition emit (ev : Event) : M unit := ([ev], Normal tt).

Definition lift {A} (c : Completion A) : M A := ([], c).

Definition bind {A B} (m : M A) (k : A -> M B) : M B :=
  match m with
  | (tr, Normal v) => let (tr', r) := k v in ((tr ++ tr')%list, r)
  | (tr, Throw e) => (tr, Throw e)
  end.

(** [try { body } catch (e) { handler e }] *)
Definition try_catch {A} (body : M A) (handler : JsError -> M A) : M A :=
  match body with
  | (tr, Normal v) => (tr, Normal v)
  | (tr, Throw e) => let (tr', r) := handler e in ((tr ++ tr')%list, r)
  end.

Definition trace {A} (m : M A) : list Event := fst m.
Definition outcome {A} (m : M A) : Completion A := snd m.

End Eff.
Import Eff.

Notation "x <- m ;; k" := (bind m (fun x => k))
  (at level 61, m at next level, right associativity).
Notation "m ;;; k" := (bind m (fun _ => k))
  (at level 61, right associativity).

(** The two platform services the module calls: the engine's [JSON.parse]
    and the SDK's [ai.models.generateContent]. *)
Class Platform : Type := {
  JSON_parse : string -> Completion Json;
  generateContent : Request -> Completion Response
}.

(** ** A reference [JSON.parse]

    A one-pass pushdown recogniser for the ECMA-404 grammar, which is what
    ECMA-262 prescribes for [JSON.parse] without a reviver.  It reads one code
    unit per step, so it is structurally recursive on the input.  Syntax errors
    carry the message of V8's classic parser: the offending token and its
    index, or the end-of-input message. *)

Module JsonParser.

Inductive Frame : Type :=
| FArray (done : list Json)
| FObject (done : JsObject.props) (key : string).

Inductive NumState : Type :=
| NMinus | NZero | NInt | NDot | NFrac | NE | NESign | NExp.

Inductive Mode : Type :=
| Value                 (* a value must start here *)
| ValueOrEnd            (* just after an opening bracket *)
| KeyOrEnd              (* just after an opening brace *)
| Key                   (* after a comma inside an object *)
| Colon                 (* after a member name *)
| After                 (* after a value inside a container *)
| Finished (v : Json)   (* the top-level value is complete *)
| Str (isKey : bool) (acc : string)
| Esc (isKey : bool) (acc : string)
| Uni (isKey : bool) (acc : string) (read code : nat)
| Num (st : NumState) (lexeme : string)
| Lit (rest : string) (v : Json).

Record PState : Type := mkState { stack : list Frame; mode : Mode }.

(** JSON insignificant whitespace: TAB, LF, CR and SP only. *)
Definition isJsonWs (c : ascii) : bool :=
  let n := nat_of_ascii c in
  (n =? 9) || (n =? 10) || (n =? 13) || (n =? 32).

Definition isDigit (c : ascii) : bool :=
  let n := nat_of_ascii c in (48 <=? n) && (n <=? 57).

Definition hexValue (c : ascii) : option nat :=
  let n := nat_of_ascii c in
  if (48 <=? n) && (n <=? 57) then Some (n - 48)
  else if (65 <=? n) && (n <=? 70) then Some (n - 55)
  else if (97 <=? n) && (n <=? 102) then Some (n - 87)
  else None.

Definition ch (c : ascii) (lit : string) : bool :=
  String.eqb (String c EmptyString) lit.

(** The classic V8 messages. *)
Definition unexpected {A} (c : ascii) (pos : nat) : Completion A :=
  let what :=
    if isDigit c || ch c "-" then "Unexpected number"
    else if Ascii.eqb c dquote then "Unexpected string"
    else "Unexpected token " ++ String c EmptyString in
  Throw (new_SyntaxError (what ++ " in JSON at position " ++ decimal pos)).

Definition unexpected_end {A} : Completion A :=
  Throw (new_SyntaxError "Unexpected end of JSON input").

(** Code units above 255 are outside the string model of this development. *)
Definition outside_model {A} (pos : nat) : Completion A :=
  Throw (mkError "ModelLimit"
           (Some ("code unit above 255 at position " ++ decimal pos))).

Definition snoc (s : string) (c : ascii) : string := s ++ String c EmptyString.

(** A value is complete: hand it to the enclosing container. *)
Definition complete (v : Json) (stk : list Frame) : PState :=
  match stk with
  | [] => mkState [] (Finished v)
  | FArray done :: rest => mkState (FArray (done ++ [v])%list :: rest) After
  | FObject done key :: rest =>
      mkState (FObject (JsObject.set done key v) key :: rest) After
  end.

(** A string literal is complete: a member name or a string value. *)
Definition complete_string (isKey : bool) (s : string) (stk : list Frame)
  : PState :=
  if isKey then
    match stk with
    | FObject done _ :: rest => mkState (FObject done s :: rest) Colon
    | _ => mkState stk Colon
    end
  else complete (JString s) stk.

(** The first code unit of a value. *)
Definition start_value (stk : list Frame) (c : ascii) (pos : nat)
  : Completion PState :=
  if ch c "{" then Normal (mkState (FObject [] EmptyString :: stk) KeyOrEnd)
  else if ch c "[" then Normal (mkState (FArray [] :: stk) ValueOrEnd)
  else if Ascii.eqb c dquote then Normal (mkState stk (Str false EmptyString))
  else if ch c "-" then Normal (mkState stk (Num NMinus "-"))
  else if ch c "0" then Normal (mkState stk (Num NZero "0"))
  else if isDigit c then Normal (mkState stk (Num NInt (String c EmptyString)))
  else if ch c "t" then Normal (mkState stk (Lit "rue" (JBool true)))
  else if ch c "f" then Normal (mkState stk (Lit "alse" (JBool false)))
  else if ch c "n" then Normal (mkState stk (Lit "ull" JNull))
  else unexpected c pos.

(** A code unit after a complete value. *)
Definition after_value (st : PState) (c : ascii) (pos : nat)
  : Completion PState :=
  match mode st with
  | Finished v =>
      if isJsonWs c then Normal st else unexpected c pos
  | _ =>
      if isJsonWs c then Normal st
      else match stack st with
           | FArray done :: rest =>
               if ch c "," then Normal (mkState (stack st) Value)
               else if ch c "]" then Normal (complete (JArray done) rest)
               else unexpected c pos
           | FObject done _ :: rest =>
               if ch c "," then Normal (mkState (stack st) Key)
               else if ch c "}" then Normal (complete (JObject done) rest)
               else unexpected c pos
           | [] => unexpected c pos
           end
  end.

(** Inside a number: the next state, or [None] when [c] cannot continue it. *)
Definition num_next (ns : NumState) (c : ascii) : option NumState :=
  let d := isDigit c in
  let e := ch c "e" || ch c "E" in
  match ns with
  | NMinus => if ch c "0" then Some NZero else if d then Some NInt else None
  | NZero => if ch c "." then Some NDot else if e then Some NE else None
  | NInt => if d then Some NInt else if ch c "." then Some NDot
            else if e then Some NE else None
  | NDot => if d then Some NFrac else None
  | NFrac => if d then Some NFrac else if e then Some NE else None
  | NE => if d then Some NExp
          else if ch c "+" || ch c "-" then Some NESign else None
  | NESign => if d then Some NExp else None
  | NExp => if d then Some NExp else None
  end.

Definition num_accepting (ns : NumState) : bool :=
  match ns with
  | NZero | NInt | NFrac | NExp => true
  | _ => false
  end.

Definition step (st : PState) (c : ascii) (pos : nat) : Completion PState :=
  let stk := stack st in
  match mode st with
  | Value =>
      if isJsonWs c then Normal st else start_value stk c pos
  | ValueOrEnd =>
      if isJsonWs c then Normal st
      else if ch c "]" then
        match stk with
        | FArray done :: rest => Normal (complete (JArray done) rest)
        | _ => unexpected c pos
        end
      else start_value stk c pos
  | KeyOrEnd =>
      if isJsonWs c then Normal st
      else if ch c "}" then
        match stk with
        | FObject done _ :: rest => Normal (complete (JObject done) rest)
        | _ => unexpected c pos
        end
      else if Ascii.eqb c dquote then Normal (mkState stk (Str true EmptyString))
      else unexpected c pos
  | Key =>
      if isJsonWs c then Normal st
      else if Ascii.eqb c dquote then Normal (mkState stk (Str true EmptyString))
      else unexpected c pos
  | Colon =>
      if isJsonWs c then Normal st
      else if ch c ":" then Normal (mkState stk Value)
      else unexpected c pos
  | After | Finished _ => after_value st c pos
  | Str isKey acc =>
      if Ascii.eqb c dquote then Normal (complete_string isKey acc stk)
      else if ch c "\" then Normal (mkState stk (Esc isKey acc))
      else if nat_of_ascii c <? 32 then unexpected c pos
      else Normal (mkState stk (Str isKey (snoc acc c)))
  | Esc isKey acc =>
      let push d := Normal (mkState stk (Str isKey (snoc acc d))) in
      if Ascii.eqb c dquote then push dquote
      else if ch c "\" then push "\"%char
      else if ch c "/" then push "/"%char
      else if ch c "b" then push "008"%char
      else if ch c "f" then push "012"%char
      else if ch c "n" then push "010"%char
      else if ch c "r" then push "013"%char
      else if ch c "t" then push "009"%char
      else if ch c "u" then Normal (mkState stk (Uni isKey acc 0 0))
      else unexpected c pos
  | Uni isKey acc read code =>
      match hexValue c with
      | None => unexpected c pos
      | Some h =>
          let code' := 16 * code + h in
          if read <? 3 then Normal (mkState stk (Uni isKey acc (S read) code'))
          else if code' <? 256
          then Normal (mkState stk (Str isKey (snoc acc (ascii_of_nat code'))))
          else outside_model pos
      end
  | Num ns lexeme =>
      match num_next ns c with
      | Some ns' => Normal (mkState stk (Num ns' (snoc lexeme c)))
      | None =>
          if num_accepting ns
          then after_value (complete (JNumber lexeme) stk) c pos
          else unexpected c pos
      end
  | Lit rest v =>
      match rest with
      | String d rest' =>
          if Ascii.eqb c d then
            match rest' with
            | EmptyString => Normal (complete v stk)
            | _ => Normal (mkState stk (Lit rest' v))
            end
          else unexpected c pos
      | EmptyString => unexpected c pos
      end
  end.

(** The end of the input. *)
Definition finish (st : PState) : Completion Json :=
  match mode st, stack st with
  | Finished v, _ => Normal v
  | Num ns lexeme, [] =>
      if num_accepting ns then Normal (JNumber lexeme) else unexpected_end
  | _, _ => unexpected_end
  end.

Fixpoint run (st : PState) (input : string) (pos : nat) : Completion Json :=
  match input with
  | EmptyString => finish st
  | String c input' =>
      match step st c pos with
      | Normal st' => run st' input' (S pos)
      | Throw e => Throw e
      end
  end.

Definition parse (input : string) : Completion Json :=
  run (mkState [] Value) input 0.

End JsonParser.

(** ** The service module *)

Section Service.

Context {P : Platform}.

Definition console_warn (label : string) (e : JsError) : M unit :=
  emit (EvWarn label e).

Definition console_error (label : string) (e : JsError) : M unit :=
  emit (EvError label e).

(** Calls that leave a mark in the trace. *)
Definition call_generateContent (req : Request) : M Response :=
  emit (EvGenerate req) ;;; lift (generateContent req).

Definition call_JSON_parse (input : string) : M Json :=
  emit (EvParse input) ;;; lift (JSON_parse input).

Definition call_tryRepairJson (input : string) : M string :=
  emit (EvRepair input) ;;; ret (tryRepairJson input).

(** [error?.message || ""] *)
Definition message_or_empty (error : JsError) : string :=
  match err_message error with
  | Some m => m
  | None => EmptyString
  end.

(** The test of line 15. *)
Definition is_quota_message (errorMsg : string) : bool :=
  includes errorMsg "429" || includes errorMsg "RESOURCE_EXHAUSTED".

(** The [catch] block of [safeGenAIRequest], lines 13-20. *)
Definition on_request_error {T} (error : JsError) : M T :=
  let errorMsg := message_or_empty error in
  if is_quota_message errorMsg
  then throw (new_Error "API_QUOTA_EXCEEDED")
  else console_error "GenAI Request Error:" error ;;; throw error.

(** [safeGenAIRequest], lines 10-21. *)
Definition safeGenAIRequest {T} (requestFn : unit -> M T) : M T :=
  try_catch (requestFn tt) on_request_error.

(** [response.text || '{}'] *)
Definition text_or_braces (response : Response) : string :=
  match text response with
  | Some (String c t) => String c t
  | _ => "{}"
  end.

(** [response.candidates?.[0]?.groundingMetadata?.groundingChunks] *)
Definition first_groundingChunks (response : Response)
  : option (list GroundingChunk) :=
  match candidates response with
  | Some (c :: _) =>
      match groundingMetadata c with
      | Some m => groundingChunks m
      | None => None
      end
  | _ => None
  end.

(** [chunk.web?.uri] and [chunk.web?.title] *)
Definition web_uri (chunk : GroundingChunk) : option string :=
  match web chunk with Some w => uri w | None => None end.

Definition web_title (chunk : GroundingChunk) : option string :=
  match web chunk with Some w => title w | None => None end.

(** The body of the [forEach] callback, lines 116-118: a string is truthy
    when it is present and not empty. *)
Definition push_chunk (sources : list GroundingSource) (chunk : GroundingChunk)
  : list GroundingSource :=
  match web_uri chunk, web_title chunk with
  | Some (String a u), Some (String b t) =>
      (sources ++ [mkSource (String b t) (String a u)])%list
  | _, _ => sources
  end.

(** Lines 112-120. *)
Definition extractSources (response : Response) : list GroundingSource :=
  let sources := [] in
  match first_groundingChunks response with
  | Some chunks => fold_left push_chunk chunks sources
  | None => sources
  end.

Definition source_value (src : GroundingSource) : Json :=
  JObject [("title", JString (src_title src)); ("uri", JString (src_uri src))].

(** [{ ...data, sources }] *)
Definition with_sources (data : Json) (sources : list GroundingSource) : Json :=
  JObject (JsObject.set (JsObject.spread data) "sources"
             (JArray (map source_value sources))).

(** The request of [getEnvironmentalSolution], lines 59-105. *)
Definition researchContents (prompt : string) (section : SectionType)
  (languageName : string) : string :=
  "Act as a world-class environmental scientist. Analyze the following environmental problem: "
  ++ dq ++ prompt ++ dq ++ " in the context of " ++ dq
  ++ SectionType_string section ++ dq ++ ".
      
      Use Google Search to find current scientific data and statistics.
      
      Response requirements in " ++ languageName ++ ":
      1. Topic: Professional title.
      2. Summary: Simple 2-sentence overview.
      3. Introduction: 2-3 paragraph overview.
      4. Explanation: Provide a deep technical analysis. IMPORTANT: Keep this field under 3000 characters to ensure the JSON remains valid and fits within the response window.
      5. Background: Context and history.
      6. Causes: Primary drivers.
      7. Impacts: Biological and societal impacts.
      8. Solutions: Practical remediation steps.
      9. Examples: Global case studies.
      10. Prevention Tips: Long-term strategies.
      11. Conclusion: Future outlook.
      12. Visual Prompt: Detailed ENGLISH prompt for a scientific diagram.
      
      CRITICAL: Ensure the response is VALID JSON. Do not let strings exceed 3000 characters.".

Definition researchProperties : list (string * Schema) :=
  [ ("topic", TString);
    ("summary", TString);
    ("introduction", TString);
    ("explanation", TString);
    ("background", TString);
    ("causes", TArray TString);
    ("impacts", TArray TString);
    ("solutions", TArray TString);
    ("examples", TArray TString);
    ("preventionTips", TArray TString);
    ("conclusion", TString);
    ("visualPrompt", TString);
    ("category", TEnum Category_values);
    ("section", TEnum ["Climate"; "Water"; "Air"; "Noise"; "Vision"]) ].

Definition researchRequired : list string :=
  ["topic"; "summary"; "introduction"; "explanation"; "background"; "causes";
   "impacts"; "solutions"; "examples"; "preventionTips"; "conclusion";
   "visualPrompt"; "category"; "section"].

Definition researchRequest (prompt : string) (section : SectionType)
  (languageName : string) : Request :=
  mkRequest "gemini-3-pro-preview"
    (researchContents prompt section languageName)
    (mkConfig [googleSearch] (Some 4000) "application/json"
       (TObject researchProperties researchRequired)).

(** [getEnvironmentalSolution], lines 55-129. *)
Definition getEnvironmentalSolution (prompt : string) (section : SectionType)
  (languageName : string) : M Json :=
  safeGenAIRequest (fun _ =>
    response <- call_generateContent (researchRequest prompt section languageName) ;;
    let jsonText := text_or_braces response in
    try_catch
      (data <- call_JSON_parse jsonText ;;
       let sources := extractSources response in
       ret (with_sources data sources))
      (fun parseError =>
         console_warn "Initial JSON parse failed, attempting repair..."
           parseError ;;;
         (repairedJson <- call_tryRepairJson jsonText ;;
          call_JSON_parse repairedJson))).

(** The request of [generateSustainabilityPlan], lines 133-157. *)
Definition planRequest (goal languageName : string) : Request :=
  mkRequest "gemini-3-flash-preview"
    ("Create a personalized 7-day sustainability plan for: " ++ dq ++ goal
     ++ dq ++ ". Language: " ++ languageName ++ ". Return JSON.")
    (mkConfig [] None "application/json"
       (TObject
          [ ("title", TString);
            ("days", TArray (TObject [ ("day", TInteger);
                                       ("task", TString);
                                       ("impact", TString) ] [])) ]
          ["title"; "days"])).

(** [generateSustainabilityPlan], lines 131-160. *)
Definition generateSustainabilityPlan (goal languageName : string) : M Json :=
  safeGenAIRequest (fun _ =>
    response <- call_generateContent (planRequest goal languageName) ;;
    call_JSON_parse (text_or_braces response)).

(** A [number | undefined] argument as a template literal renders it: [Some s]
    is a number whose string conversion is [s]. *)
Definition coordinate_string (x : option string) : string :=
  match x with
  | Some s => s
  | None => "undefined"
  end.

(** The request of [getEcoStatus], lines 238-255. *)
Definition statusRequest (lat lng : option string) (languageName : string)
  : Request :=
  mkRequest "gemini-3-pro-preview"
    ("Fetch current planetary status and environmental news. Coordinates: "
     ++ coordinate_string lat ++ "," ++ coordinate_string lng
     ++ ". Return JSON in " ++ languageName ++ ".")
    (mkConfig [googleSearch] None "application/json"
       (TObject
          [ ("localTemp", TString);
            ("localCondition", TString);
            ("globalAvgTemp", TString);
            ("news", TArray (TObject [ ("title", TString);
                                       ("description", TString);
                                       ("url", TString) ] [])) ]
          ["localTemp"; "localCondition"; "globalAvgTemp"; "news"])).

(** [getEcoStatus], lines 236-258. *)
Definition getEcoStatus (lat lng : option string) (languageName : string)
  : M Json :=
  safeGenAIRequest (fun _ =>
    response <- call_generateContent (statusRequest lat lng languageName) ;;
    call_JSON_parse (text_or_braces response)).

End Service.

(** The three JSON task operations, as the caller sees them. *)
Inductive Task : Type :=
| ResearchReport (prompt : string) (section : SectionType) (languageName : string)
| SustainabilityPlan (goal languageName : string)
| PlanetaryStatus (lat lng : option string) (languageName : string).

Definition run_task {P : Platform} (t : Task) : M Json :=
  match t with
  | ResearchReport p s l => getEnvironmentalSolution p s l
  | SustainabilityPlan g l => generateSustainabilityPlan g l
  | PlanetaryStatus la lo l => getEcoStatus la lo l
  end.

Definition task_request (t : Task) : Request :=
  match t with
  | ResearchReport p s l => researchRequest p s l
  | SustainabilityPlan g l => planRequest g l
  | PlanetaryStatus la lo l => statusRequest la lo l
  end.

(** A task is search-grounded when its request enables the search tool. *)
Definition search_grounded (t : Task) : bool :=
  match tools (config (task_request t)) with
  | [] => false
  | _ => true
  end.

(** A platform whose backend answers every request with [r] and whose
    [JSON.parse] is the reference parser. *)
Definition answering (r : Completion Response) : Platform :=
  {| JSON_parse := JsonParser.parse; generateContent := fun _ => r |}.

(** ** Vocabulary of the statements *)

(** [t] occurs in [s]. *)
Definition contains (s t : string) : Prop := exists l r, s = l ++ t ++ r.

(** A message that signals quota exhaustion. *)
Definition quota_signal (msg : string) : Prop :=
  contains msg "429" \/ contains msg "RESOURCE_EXHAUSTED".

(** A string property that is present and not empty. *)
Definition nonempty (s : option string) : bool :=
  match s with
  | Some (String _ _) => true
  | _ => false
  end.

Definition or_empty (s : option string) : string :=
  match s with
  | Some v => v
  | None => EmptyString
  end.

(** A chunk that has both a URI and a title, and the source it stands for. *)
Definition complete_chunk (chunk : GroundingChunk) : bool :=
  nonempty (web_uri chunk) && nonempty (web_title chunk).

Definition source_of (chunk : GroundingChunk) : GroundingSource :=
  mkSource (or_empty (web_title chunk)) (or_empty (web_uri chunk)).

(** The extraction as the specification words it: keep the complete chunks,
    in order. *)
Definition kept_sources (chunks : list GroundingChunk) : list GroundingSource :=
  map source_of (filter complete_chunk chunks).

(** What the catch block of [safeGenAIRequest] throws for the failure [e],
    and what it logs before. *)
Definition classified (e : JsError) : JsError :=
  if is_quota_message (message_or_empty e)
  then new_Error "API_QUOTA_EXCEEDED"
  else e.

Definition error_log (e : JsError) : list Event :=
  if is_quota_message (message_or_empty e)
  then []
  else [EvError "GenAI Request Error:" e].

Definition repair_warning : string :=
  "Initial JSON parse failed, attempting repair...".

(** The calls of [getEnvironmentalSolution] up to the second parse, when the
    first parse of [jsonText] has thrown [parseError]. *)
Definition repair_attempt (req : Request) (jsonText : string)
  (parseError : JsError) : list Event :=
  [EvGenerate req; EvParse jsonText; EvWarn repair_warning parseError;
   EvRepair jsonText; EvParse (tryRepairJson jsonText)].

(** How often [tryRepairJson] was called, and what [JSON.parse] was given. *)
Fixpoint repairs (tr : list Event) : nat :=
  match tr with
  | [] => 0
  | EvRepair _ :: tr' => S (repairs tr')
  | _ :: tr' => repairs tr'
  end.

Fixpoint parses (tr : list Event) : list string :=
  match tr with
  | [] => []
  | EvParse input :: tr' => input :: parses tr'
  | _ :: tr' => parses tr'
  end.

(** Reading a property of a returned value: [v.k]. *)
Definition field (v : Json) (k : string) : option Json :=
  match v with
  | JObject fields => JsObject.get fields k
  | _ => None
  end.

Definition required_fields (t : Task) : list string :=
  match responseSchema (config (task_request t)) with
  | TObject _ required => required
  | _ => []
  end.

Definition is_research (t : Task) : bool :=
  match t with
  | ResearchReport _ _ _ => true
  | _ => false
  end.

Definition starts_with_ws (s : string) : bool :=
  match s with
  | String c _ => isWhiteSpace c
  | EmptyString => false
  end.

Definition is_throw {A} (c : Completion A) : bool :=
  match c with
  | Throw _ => true
  | Normal _ => false
  end.

(** The parse failure on which task [t] gives up: for the research report the
    failure of the second parse after a failed first one, for the other two
    the failure of the only parse. *)
Definition final_parse_failure {P : Platform} (t : Task) (response : Response)
  (e : JsError) : Prop :=
  let jsonText := text_or_braces response in
  if is_research t
  then is_throw (JSON_parse jsonText) = true
       /\ JSON_parse (tryRepairJson jsonText) = Throw e
  else JSON_parse jsonText = Throw e.

(** ** Fixtures: concrete requests and responses *)

Definition too_many_requests : unit -> M Response :=
  fun _ =>
    @call_generateContent
      (answering (Throw (new_Error "429 Too Many Requests")))
      (planRequest "zero waste" "English").

(** A response that carries [chunks] on its first candidate. *)
Definition grounded_response (body : option string)
  (chunks : list GroundingChunk) : Response :=
  mkResponse body (Some [mkCandidate (Some (mkMetadata (Some chunks)))]).

Definition web_chunk (u t : option string) : GroundingChunk :=
  mkChunk (Some (mkWeb u t)).

Definition english_report : Task :=
  ResearchReport "ocean acidification" Water "English".

Definition english_plan : Task := SustainabilityPlan "zero waste" "English".

Definition english_status : Task := PlanetaryStatus None None "English".

(** A plan cut off inside its title. *)
Definition truncated_text : string := js "{'title': 'A week of less waste".

Definition truncated_response : Response :=
  mkResponse (Some truncated_text) None.

Definition status_text : string :=
  js "{'localTemp': '21C', 'localCondition': 'Clear', 'globalAvgTemp': '15C', 'news': []}".

Definition status_value : Json :=
  JObject [("localTemp", JString "21C"); ("localCondition", JString "Clear");
           ("globalAvgTemp", JString "15C"); ("news", JArray [])].

Definition cited : list GroundingChunk :=
  [web_chunk (Some "https://a.example") (Some "A")].

Definition status_response : Response :=
  grounded_response (Some status_text) cited.

Definition report_text : string :=
  js "{'topic': 'Ocean acidification', 'section': 'Water'}".

Definition report_response : Response :=
  grounded_response (Some report_text)
    [web_chunk (Some "https://a.example") (Some "A");
     web_chunk (Some "https://b.example") (Some "B")].

(** Text that ends with a closing brace behind a no-break space, which
    [trim] strips and JSON does not allow. *)
Definition padded_text : string := String "160"%char "{}".

(** An object whose stray comma stands at index 429. *)
Definition comma_at_429 : string := "{" ++ repeat_char " " 428 ++ ",}".

Definition position_429_error : JsError :=
  new_SyntaxError "Unexpected token , in JSON at position 429".

Definition trailing_comma_text : string := js "{'topic': 'Smog',}".

Definition trailing_comma_error : JsError :=
  new_SyntaxError "Unexpected token } in JSON at position 17".

(** A response without text that still carries a grounding chunk. *)
Definition silent_cited_response : Response := grounded_response None cited.

(** * The rest of the service and its callers *)

From Stdlib Require Import ZArith QArith.
From Stdlib Require Strings.Byte.
Local Open Scope nat_scope.

(** ** The habit tracker ([components/HabitTracker.tsx]) *)

Module Habits.

(** [interface EcoHabit] of [types.ts].  A streak is a whole number, far
    inside the range where the arithmetic of doubles is exact. *)
Record EcoHabit : Type := mkHabit {
  id : string;
  name : string;
  completed : bool;
  streak : Z
}.

(** The callback given to [prev.map] in [toggleHabit], lines 19-25. *)
Definition toggle_one (id0 : string) (h : EcoHabit) : EcoHabit :=
  if String.eqb (id h) id0 then
    let completed' := negb (completed h) in
    mkHabit (id h) (name h) completed'
      (if completed' then (streak h + 1)%Z else Z.max 0 (streak h - 1))
  else h.

(** [toggleHabit], lines 18-26: the next value of the [habits] state. *)
Definition toggleHabit (id0 : string) (prev : list EcoHabit) : list EcoHabit :=
  map (toggle_one id0) prev.

(** The habits of a first visit, lines 8-10. *)
Definition default_habits : list EcoHabit :=
  [ mkHabit "1" "Reusable Bottle" false 3;
    mkHabit "2" "Composting" false 12;
    mkHabit "3" "Cold Wash Only" false 0 ].

(** The width of the progress bar in percent, line 57:
    [Math.min(habit.streak * 8, 100)]. *)
Definition progress_width (h : EcoHabit) : Z := Z.min (streak h * 8) 100.

(** What every habit reachable from the defaults satisfies: no negative
    streak, and a ticked habit has a streak of at least one. *)
Definition sound (h : EcoHabit) : Prop :=
  (0 <= streak h)%Z /\ (completed h = true -> (1 <= streak h)%Z).

End Habits.

(** ** Base64: the platform's [btoa] and [atob]

    The forgiving-base64 encode and decode of the WHATWG Infra standard, which
    is what the HTML standard prescribes for [btoa] and [atob]. *)

Module Base64.

Definition alphabet : string :=
  "ABCDEFGHIJKLMNOPQRSTUVWXYZabcdefghijklmnopqrstuvwxyz0123456789+/".

(** The character that stands for a 6-bit value. *)
Definition digit_char (v : nat) : ascii :=
  match String.get v alphabet with
  | Some c => c
  | None => "="%char
  end.

Fixpoint index_of (c : ascii) (s : string) : option nat :=
  match s with
  | EmptyString => None
  | String d s' =>
      if Ascii.eqb d c then Some 0 else option_map S (index_of c s')
  end.

(** The 6-bit value of a character of the alphabet. *)
Definition digit_value (c : ascii) : option nat := index_of c alphabet.

(** Encoding of a run of bytes: three bytes give four characters, and a last
    group of one or two bytes is padded with [=]. *)
Fixpoint encode_units (units : list nat) : string :=
  match units with
  | a :: b :: c :: rest =>
      String (digit_char (a / 4))
        (String (digit_char ((a mod 4) * 16 + b / 16))
           (String (digit_char ((b mod 16) * 4 + c / 64))
              (String (digit_char (c mod 64)) (encode_units rest))))
  | [a; b] =>
      String (digit_char (a / 4))
        (String (digit_char ((a mod 4) * 16 + b / 16))
           (String (digit_char ((b mod 16) * 4)) "="))
  | [a] =>
      String (digit_char (a / 4)) (String (digit_char ((a mod 4) * 16)) "==")
  | [] => EmptyString
  end.

(** [btoa(s)].  It throws only for a code unit above 255, which the strings
    of this development do not have. *)
Definition btoa (s : string) : string :=
  encode_units (map nat_of_ascii (list_ascii_of_string s)).

(** ASCII whitespace: TAB, LF, FF, CR and SP. *)
Definition isAsciiWhitespace (c : ascii) : bool :=
  let n := nat_of_ascii c in
  (n =? 9) || (n =? 10) || (n =? 12) || (n =? 13) || (n =? 32).

Fixpoint remove_whitespace (s : string) : string :=
  match s with
  | EmptyString => EmptyString
  | String c s' =>
      if isAsciiWhitespace c then remove_whitespace s'
      else String c (remove_whitespace s')
  end.

Definition drop_last (n : nat) (s : string) : string :=
  substring 0 (String.length s - n) s.

(** When the length is a multiple of four, one or two [=] at the end are
    removed. *)
Definition strip_padding (s : string) : string :=
  if String.length s mod 4 =? 0 then
    if endsWith s "==" then drop_last 2 s
    else if endsWith s "=" then drop_last 1 s
    else s
  else s.

Definition unit_string (n : nat) : string := String (ascii_of_nat n) EmptyString.

(** The decoding loop: six bits per character into a buffer that is emptied
    as three bytes when it holds 24 bits; at the end 12 bits give one byte and
    18 bits give two, the spare bits being dropped.  A character outside the
    alphabet is a failure. *)
Fixpoint decode_digits (s : string) (buffer bits : nat) (output : string)
  : option string :=
  match s with
  | EmptyString =>
      Some (if bits =? 12 then output ++ unit_string (buffer / 16)
            else if bits =? 18
                 then output ++ unit_string (buffer / 4 / 256)
                             ++ unit_string ((buffer / 4) mod 256)
                 else output)
  | String c rest =>
      match digit_value c with
      | None => None
      | Some v =>
          let buffer := buffer * 64 + v in
          let bits := bits + 6 in
          if bits =? 24
          then decode_digits rest 0 0
                 (output ++ unit_string (buffer / 256 / 256)
                         ++ unit_string ((buffer / 256) mod 256)
                         ++ unit_string (buffer mod 256))
          else decode_digits rest buffer bits output
      end
  end.

Definition forgiving_decode (data : string) : option string :=
  let data := remove_whitespace data in
  let data := strip_padding data in
  if String.length data mod 4 =? 1 then None
  else decode_digits data 0 0 EmptyString.

(** The [DOMException] of [atob], with the message Chromium gives it. *)
Definition InvalidCharacterError : JsError :=
  mkError "InvalidCharacterError"
    (Some "Failed to execute 'atob' on 'Window': The string to be decoded is not correctly encoded.").

(** [atob(data)] *)
Definition atob (data : string) : Completion string :=
  match forgiving_decode data with
  | Some s => Normal s
  | None => Throw InvalidCharacterError
  end.

(** The characters of the encoding without the padding, and the padding. *)
Fixpoint encode_digits (units : list nat) : string :=
  match units with
  | a :: b :: c :: rest =>
      String (digit_char (a / 4))
        (String (digit_char ((a mod 4) * 16 + b / 16))
           (String (digit_char ((b mod 16) * 4 + c / 64))
              (String (digit_char (c mod 64)) (encode_digits rest))))
  | [a; b] =>
      String (digit_char (a / 4))
        (String (digit_char ((a mod 4) * 16 + b / 16))
           (String (digit_char ((b mod 16) * 4)) EmptyString))
  | [a] =>
      String (digit_char (a / 4))
        (String (digit_char ((a mod 4) * 16)) EmptyString)
  | [] => EmptyString
  end.

Definition padding (n : nat) : string :=
  match n mod 3 with
  | 1 => "=="
  | 2 => "="
  | _ => EmptyString
  end.

Fixpoint all_digits (s : string) : bool :=
  match s with
  | EmptyString => true
  | String c s' =>
      match digit_value c with
      | Some _ => all_digits s'
      | None => false
      end
  end.

(** The string whose code units are [units]. *)
Fixpoint units_string (units : list nat) : string :=
  match units with
  | [] => EmptyString
  | n :: rest => String (ascii_of_nat n) (units_string rest)
  end.

End Base64.

(** ** The byte helpers of the service, lines 184-198 *)

(** [for (let i = 0; i < n; i++) body], on the state the body updates. *)
Fixpoint for_range {St : Type} (i n : nat) (body : nat -> St -> St) (s : St)
  : St :=
  match n with
  | 0 => s
  | S n' => for_range (S i) n' body (body i s)
  end.

Definition for_loop {St : Type} (n : nat) (body : nat -> St -> St) (s : St)
  : St :=
  for_range 0 n body s.

(** A [Uint8Array] is a list of bytes.  [new Uint8Array(n)] is filled with
    zeros; a store converts the number modulo 256, and not-a-number to 0; a
    store outside the array does nothing. *)
Definition Uint8Array : Type := list Byte.byte.

Definition new_Uint8Array (n : nat) : Uint8Array := repeat Byte.x00 n.

Definition ToUint8 (x : option nat) : Byte.byte :=
  match x with
  | Some n =>
      match Byte.of_nat (n mod 256) with
      | Some b => b
      | None => Byte.x00
      end
  | None => Byte.x00
  end.

Fixpoint store (bytes : Uint8Array) (i : nat) (b : Byte.byte) : Uint8Array :=
  match bytes, i with
  | [], _ => []
  | _ :: rest, 0 => b :: rest
  | x :: rest, S i' => x :: store rest i' b
  end.

(** [bytes[i]], [undefined] outside the array. *)
Definition element (bytes : Uint8Array) (i : nat) : option nat :=
  option_map Byte.to_nat (nth_error bytes i).

(** [s.charCodeAt(i)], not-a-number outside the string. *)
Definition charCodeAt (s : string) (i : nat) : option nat :=
  option_map nat_of_ascii (String.get i s).

(** [String.fromCharCode(x)]: [undefined] counts as 0. *)
Definition fromCharCode (x : option nat) : string :=
  match x with
  | Some n => String (ascii_of_nat n) EmptyString
  | None => String (ascii_of_nat 0) EmptyString
  end.

(** [decode], lines 184-189. *)
Definition decode (base64 : string) : Completion Uint8Array :=
  match Base64.atob base64 with
  | Throw e => Throw e
  | Normal binary =>
      let bytes := new_Uint8Array (String.length binary) in
      Normal (for_loop (String.length binary)
                (fun i bytes => store bytes i (ToUint8 (charCodeAt binary i)))
                bytes)
  end.

(** [encode], lines 191-198. *)
Definition encode (bytes : Uint8Array) : string :=
  let binary := EmptyString in
  let len := length bytes in
  let binary :=
    for_loop len
      (fun i binary => binary ++ fromCharCode (element bytes i))
      binary in
  Base64.btoa binary.

(** ** Speech and images: the media operations, lines 162-234 *)

Module Media.

(** The response of a media request, as far as the service reads it:
    [candidates[0].content.parts[i].inlineData.data], every step optional. *)
Record Blob : Type := mkBlob { data : option string; mimeType : option string }.

Record Part : Type := mkPart { text : option string; inlineData : option Blob }.

Record Content : Type := mkContent { parts : option (list Part) }.

Record Candidate : Type := mkCandidate { content : option Content }.

Record Response : Type := mkResponse { candidates : option (list Candidate) }.

Inductive Modality : Type := AUDIO.

(** [type ImageSize] of [types.ts]. *)
Inductive ImageSize : Type := Size1K | Size2K | Size4K.

Record ImageConfig : Type := mkImageConfig {
  aspectRatio : string;
  imageSize : ImageSize
}.

(** [contents] is one content or an array of contents, each with text
    parts. *)
Inductive Contents : Type :=
| OneContent (texts : list string)
| ContentArray (items : list (list string)).

Record Request : Type := mkRequest {
  model : string;
  contents : Contents;
  responseModalities : list Modality;
  voiceName : option string;
  imageConfig : option ImageConfig
}.

End Media.

(** What the media operations ask of the platform: the SDK's
    [generateContent] for a media request, the constructor of an audio
    context at a sample rate, and the channel counts and sample rates for
    which the implementation makes buffers. *)
Class MediaPlatform : Type := {
  generateMedia : Media.Request -> Completion Media.Response;
  newAudioContext : N -> Completion unit;
  supports : nat -> N -> bool
}.

(** *** Audio buffers *)

(** A sample of a [Float32Array]: a rational, or not-a-number.  Every value
    stored below is a 16-bit integer over 32768, which a float holds
    exactly. *)
Definition Sample : Type := option Q.

Record AudioBuffer : Type := mkAudioBuffer {
  numberOfChannels : nat;
  frames : nat;
  sampleRate : N;
  channelData : list (list Sample)
}.

(** A store into an array: outside the array it does nothing. *)
Fixpoint set_at {A : Type} (l : list A) (i : nat) (v : A) : list A :=
  match l, i with
  | [], _ => []
  | _ :: rest, 0 => v :: rest
  | x :: rest, S i' => x :: set_at rest i' v
  end.

(** The signed 16-bit integer of two bytes, low byte first. *)
Definition int16 (lo hi : Byte.byte) : Z :=
  let u := (Z.of_nat (Byte.to_nat lo) + 256 * Z.of_nat (Byte.to_nat hi))%Z in
  if (u <? 32768)%Z then u else (u - 65536)%Z.

Fixpoint int16_pairs (bytes : Uint8Array) : list Z :=
  match bytes with
  | lo :: hi :: rest => int16 lo hi :: int16_pairs rest
  | _ => []
  end.

Definition RangeError_Int16Array : JsError :=
  mkError "RangeError"
    (Some "byte length of Int16Array should be a multiple of 2").

(** [new Int16Array(data.buffer)] over the whole buffer of [data]. *)
Definition new_Int16Array (buffer : Uint8Array) : Completion (list Z) :=
  if Nat.even (length buffer) then Normal (int16_pairs buffer)
  else Throw RangeError_Int16Array.

Definition NotSupportedError : JsError :=
  mkError "NotSupportedError"
    (Some "Failed to execute 'createBuffer' on 'BaseAudioContext': The arguments provided are not supported.").

Section Audio.

Context {MP : MediaPlatform}.

(** [ctx.createBuffer(numberOfChannels, length, sampleRate)]: a silent
    buffer, or [NotSupportedError] when an argument is zero or outside the
    range of the implementation. *)
Definition createBuffer (channels length : nat) (rate : N)
  : Completion AudioBuffer :=
  if (channels =? 0) || (length =? 0) || (rate =? 0)%N
     || negb (supports channels rate)
  then Throw NotSupportedError
  else Normal (mkAudioBuffer channels length rate
                 (repeat (repeat (Some 0%Q) length) channels)).

(** [buffer.getChannelData(c)] and a write through the array it returns. *)
Definition getChannelData (buffer : AudioBuffer) (c : nat) : list Sample :=
  nth c (channelData buffer) [].

Definition with_channel (buffer : AudioBuffer) (c : nat) (samples : list Sample)
  : AudioBuffer :=
  mkAudioBuffer (numberOfChannels buffer) (frames buffer) (sampleRate buffer)
    (set_at (channelData buffer) c samples).

(** [dataInt16[k] / 32768.0] *)
Definition scaled (dataInt16 : list Z) (k : nat) : Sample :=
  match nth_error dataInt16 k with
  | Some v => Some (v # 32768)%Q
  | None => None
  end.

(** [decodeAudioData], lines 200-208. *)
Definition decodeAudioData (data : Uint8Array) (rate : N) (channels : nat)
  : Completion AudioBuffer :=
  match new_Int16Array data with
  | Throw e => Throw e
  | Normal dataInt16 =>
      match createBuffer channels (length dataInt16 / channels) rate with
      | Throw e => Throw e
      | Normal buffer =>
          Normal
            (for_loop channels
               (fun c buffer =>
                  let channelData := getChannelData buffer c in
                  with_channel buffer c
                    (for_loop (length channelData)
                       (fun i channelData =>
                          set_at channelData i (scaled dataInt16 (i * channels + c)))
                       channelData))
               buffer)
      end
  end.

(** The request of [generateSpeech], lines 164-173. *)
Definition speechRequest (text : string) : Media.Request :=
  Media.mkRequest "gemini-2.5-flash-preview-tts"
    (Media.ContentArray [[text]]) [Media.AUDIO] (Some "Zephyr") None.

(** [response.candidates?.[0]?.content?.parts?.[0]?.inlineData?.data] *)
Definition first_inline_data (response : Media.Response) : option string :=
  match Media.candidates response with
  | Some (c :: _) =>
      match Media.content c with
      | Some ct =>
          match Media.parts ct with
          | Some (p :: _) =>
              match Media.inlineData p with
              | Some blob => Media.data blob
              | None => None
              end
          | _ => None
          end
      | None => None
      end
  | _ => None
  end.

(** [generateSpeech], lines 162-182. *)
Definition generateSpeech (text : string) : M AudioBuffer :=
  safeGenAIRequest (fun _ =>
    response <- lift (generateMedia (speechRequest text)) ;;
    match first_inline_data response with
    | Some (String c rest) =>
        let base64Audio := String c rest in
        lift (newAudioContext 24000%N) ;;;
        (data <- lift (decode base64Audio) ;;
         lift (decodeAudioData data 24000%N 1))
    | _ => throw (new_Error "Audio synthesis failed")
    end).

(** Reading [find] on the missing [parts] of a content, with the message
    V8 gives. *)
Definition TypeError_find : JsError :=
  mkError "TypeError"
    (Some "Cannot read properties of undefined (reading 'find')").

(** [response.candidates?.[0]?.content?.parts.find(p => p.inlineData)]:
    the chain stops at a missing candidate or content, but not at missing
    parts. *)
Definition find_inline_part (response : Media.Response)
  : Completion (option Media.Part) :=
  match Media.candidates response with
  | Some (c :: _) =>
      match Media.content c with
      | Some ct =>
          match Media.parts ct with
          | Some ps =>
              Normal (find (fun p => match Media.inlineData p with
                                     | Some _ => true
                                     | None => false
                                     end) ps)
          | None => Throw TypeError_find
          end
      | None => Normal None
      end
  | _ => Normal None
  end.

(** [part ? `data:image/png;base64,${part.inlineData.data}` : ''] *)
Definition data_uri (part : option Media.Part) : string :=
  match part with
  | Some p =>
      "data:image/png;base64,"
      ++ match Media.inlineData p with
         | Some blob =>
             match Media.data blob with
             | Some d => d
             | None => "undefined"
             end
         | None => "undefined"
         end
  | None => EmptyString
  end.

Definition illustrationRequest (visualPrompt : string) : Media.Request :=
  Media.mkRequest "gemini-2.5-flash-image"
    (Media.OneContent
       ["Educational diagram: " ++ visualPrompt
        ++ ". Focus on clarity and labeling."])
    [] None None.

(** [generateVisualIllustration], lines 210-219.  The template of the
    request converts the argument to a string inside the guarded function:
    [illustrate] takes the completion of that conversion, which for a string
    is the string itself. *)
Definition illustrate (visualPrompt : Completion string) : M string :=
  safeGenAIRequest (fun _ =>
    visualPrompt <- lift visualPrompt ;;
    (response <- lift (generateMedia (illustrationRequest visualPrompt)) ;;
     (part <- lift (find_inline_part response) ;;
      ret (data_uri part)))).

Definition generateVisualIllustration (visualPrompt : string) : M string :=
  illustrate (Normal visualPrompt).

Definition proImageRequest (prompt : string) (size : Media.ImageSize)
  : Media.Request :=
  Media.mkRequest "gemini-3-pro-image-preview"
    (Media.OneContent [prompt]) [] None
    (Some (Media.mkImageConfig "1:1" size)).

(** [generateProImage], lines 221-234. *)
Definition generateProImage (prompt : string) (size : Media.ImageSize)
  : M string :=
  safeGenAIRequest (fun _ =>
    response <- lift (generateMedia (proImageRequest prompt size)) ;;
    (part <- lift (find_inline_part response) ;;
     ret (data_uri part))).

(** What both image operations do with the completion of the backend call. *)
Definition image_of (response : Completion Media.Response) : M string :=
  safeGenAIRequest (fun _ =>
    response <- lift response ;;
    (part <- lift (find_inline_part response) ;;
     ret (data_uri part))).

End Audio.

(** A reference platform for the media operations: the backend answers
    every request with [r]; audio contexts and buffers exist for up to 32
    channels and for the sample rates from 8000 to 96000 Hz, the ranges that
    Web Audio requires of every implementation. *)
Definition standard_rate (channels : nat) (rate : N) : bool :=
  (channels <=? 32) && (8000 <=? rate)%N && (rate <=? 96000)%N.

Definition media_answering (r : Media.Response) : MediaPlatform := {|
  generateMedia := fun _ => Normal r;
  newAudioContext := fun rate =>
    if standard_rate 1 rate then Normal tt else Throw NotSupportedError;
  supports := standard_rate
|}.

(** A response that carries [data] as the inline data of its first part. *)
Definition inline_response (data : string) : Media.Response :=
  Media.mkResponse
    (Some [Media.mkCandidate
             (Some (Media.mkContent
                      (Some [Media.mkPart None
                               (Some (Media.mkBlob (Some data) None))])))]).

(** Two frames of one channel: the 16-bit integers 1 and -1. *)
Definition two_frames : Uint8Array := [Byte.x01; Byte.x00; Byte.xff; Byte.xff].

Definition two_frames_buffer : AudioBuffer :=
  mkAudioBuffer 1 2 24000%N [[Some (1 # 32768)%Q; Some (-1 # 32768)%Q]].

(** [candidates?.[0]?.content] of a media response. *)
Definition first_content (response : Media.Response) : option Media.Content :=
  match Media.candidates response with
  | Some (c :: _) => Media.content c
  | _ => None
  end.

(** What the template of the data URI prints for the data of a blob. *)
Definition blob_text (blob : Media.Blob) : string :=
  match Media.data blob with
  | Some d => d
  | None => "undefined"
  end.

Definition synthesis_failed : JsError := new_Error "Audio synthesis failed".

(** A part that holds only text, and one that holds inline data. *)
Definition text_part (t : string) : Media.Part := Media.mkPart (Some t) None.

Definition image_part (d : string) : Media.Part :=
  Media.mkPart None (Some (Media.mkBlob (Some d) (Some "image/png"))).

Definition parts_response (ps : option (list Media.Part)) : Media.Response :=
  Media.mkResponse (Some [Media.mkCandidate (Some (Media.mkContent ps))]).

(** A platform whose backend fails every media request with [e]. *)
Definition media_failing (e : JsError) : MediaPlatform := {|
  generateMedia := fun _ => Throw e;
  newAudioContext := fun _ => Normal tt;
  supports := standard_rate
|}.

Definition three_parts_response : Media.Response :=
  parts_response
    (Some [text_part "Here it is"; image_part "AAAA"; image_part "BBBB"]).

(** ** The callers: the application and its forms *)

(** What the engine does with a parsed value where a caller uses it as a
    string or as a condition.  The conversions whose result depends on the
    number a lexeme denotes, or on the properties of an object, are the
    engine's: the text of a number, an array or an object, which can throw,
    and whether a number is zero or not-a-number. *)
Class Engine : Type := {
  ToString : Json -> Completion string;
  ToBoolean_number : string -> bool
}.

(** [console.error(error)], with the error as the only argument. *)
Definition console_error_1 (error : JsError) : Event := EvError EmptyString error.

(** [error.message === "API_QUOTA_EXCEEDED"] *)
Definition is_quota_error (error : JsError) : bool :=
  match err_message error with
  | Some m => (m =? "API_QUOTA_EXCEEDED")%string
  | None => false
  end.

(** [!s.trim()] *)
Definition blank (s : string) : bool :=
  match trim s with
  | EmptyString => true
  | String _ _ => false
  end.

Section Conversions.

Context {E : Engine}.

(** What a template literal prints for a value, [None] being
    [undefined]. *)
Definition template_text (v : option Json) : Completion string :=
  match v with
  | None => Normal "undefined"
  | Some (JString s) => Normal s
  | Some JNull => Normal "null"
  | Some (JBool true) => Normal "true"
  | Some (JBool false) => Normal "false"
  | Some v => ToString v
  end.


End Conversions.

Definition TypeError_visualPrompt : JsError :=
  mkError "TypeError"
    (Some "Cannot read properties of null (reading 'visualPrompt')").

(** [result.visualPrompt]: the property of an object, nothing on a string,
    a number, a boolean or an array, and a [TypeError] on [null]. *)
Definition visualPrompt_of (result : Json) : Completion (option Json) :=
  match result with
  | JNull => Throw TypeError_visualPrompt
  | JObject fields => Normal (JsObject.get fields "visualPrompt")
  | _ => Normal None
  end.

(** *** The recorder: the audio callback of [startLiveTranscription] *)

(** The integer part of a rational, towards zero. *)
Definition truncate (q : Q) : Z := Z.quot (Qnum q) (Zpos (Qden q)).

(** The conversion of a store into an [Int16Array]: a number that is not
    finite gives 0; a finite one is cut to its integer part, taken modulo
    65536 and read as a signed 16-bit integer.  As a number to convert,
    [None] stands for not-a-number and for the infinities alike. *)
Definition ToInt16 (x : Sample) : Z :=
  match x with
  | None => 0%Z
  | Some q =>
      let int16bit := (truncate q mod 65536)%Z in
      if (int16bit <? 32768)%Z then int16bit else (int16bit - 65536)%Z
  end.

(** [x * 32768] *)
Definition times_32768 (x : Sample) : Sample :=
  match x with
  | Some q => Some (q * (32768 # 1))%Q
  | None => None
  end.

(** The two bytes of a 16-bit integer in a buffer, low byte first. *)
Definition int16_bytes (v : Z) : list Byte.byte :=
  let u := (v mod 65536)%Z in
  [ToUint8 (Some (Z.to_nat (u mod 256))); ToUint8 (Some (Z.to_nat (u / 256)))].

(** [new Uint8Array(int16.buffer)] *)
Definition Uint8Array_of_Int16Array (int16 : list Z) : Uint8Array :=
  flat_map int16_bytes int16.

(** The loop of the callback: the samples of the input buffer as 16-bit
    integers. *)
Definition pcm_int16 (inputData : list Sample) : list Z :=
  let l := length inputData in
  let int16 := repeat 0%Z l in
  for_loop l
    (fun i int16 => set_at int16 i (ToInt16 (times_32768 (nth i inputData None))))
    int16.

(** The blob that the callback sends to the live session. *)
Definition pcmBlob (inputData : list Sample) : Media.Blob :=
  Media.mkBlob
    (Some (encode (Uint8Array_of_Int16Array (pcm_int16 inputData))))
    (Some "audio/pcm;rate=16000").

(** *** [App]: the state of the component and its handlers *)

Module App.

Inductive ViewMode : Type := Dashboard | Research.

Record Language : Type := mkLanguage {
  code : string;
  name : string;
  nativeName : string
}.

(** The state variables of the component, and whether each of its two
    references to live objects holds one. *)
Record State : Type := mkState {
  view : ViewMode;
  input : string;
  loading : bool;
  loadingStep : string;
  recording : bool;
  solution : option Json;
  illustrationUrl : option string;
  activeSection : SectionType;
  ecoStatus : option Json;
  selectedLanguage : Language;
  hasApiKey : bool;
  quotaError : bool;
  researchError : option string;
  liveSessionRef : bool;
  audioContextRef : bool
}.

Definition setView (v : ViewMode) (s : State) : State :=
  mkState v (input s) (loading s) (loadingStep s) (recording s) (solution
    s) (illustrationUrl s) (activeSection s) (ecoStatus s)
    (selectedLanguage s) (hasApiKey s) (quotaError s) (researchError s)
    (liveSessionRef s) (audioContextRef s).

Definition setInput (v : string) (s : State) : State :=
  mkState (view s) v (loading s) (loadingStep s) (recording s) (solution
    s) (illustrationUrl s) (activeSection s) (ecoStatus s)
    (selectedLanguage s) (hasApiKey s) (quotaError s) (researchError s)
    (liveSessionRef s) (audioContextRef s).

Definition setLoading (v : bool) (s : State) : State :=
  mkState (view s) (input s) v (loadingStep s) (recording s) (solution s)
    (illustrationUrl s) (activeSection s) (ecoStatus s)
    (selectedLanguage s) (hasApiKey s) (quotaError s) (researchError s)
    (liveSessionRef s) (audioContextRef s).

Definition setLoadingStep (v : string) (s : State) : State :=
  mkState (view s) (input s) (loading s) v (recording s) (solution s)
    (illustrationUrl s) (activeSection s) (ecoStatus s)
    (selectedLanguage s) (hasApiKey s) (quotaError s) (researchError s)
    (liveSessionRef s) (audioContextRef s).

Definition setRecording (v : bool) (s : State) : State :=
  mkState (view s) (input s) (loading s) (loadingStep s) v (solution s)
    (illustrationUrl s) (activeSection s) (ecoStatus s)
    (selectedLanguage s) (hasApiKey s) (quotaError s) (researchError s)
    (liveSessionRef s) (audioContextRef s).

Definition setSolution (v : option Json) (s : State) : State :=
  mkState (view s) (input s) (loading s) (loadingStep s) (recording s) v
    (illustrationUrl s) (activeSection s) (ecoStatus s)
    (selectedLanguage s) (hasApiKey s) (quotaError s) (researchError s)
    (liveSessionRef s) (audioContextRef s).

Definition setIllustrationUrl (v : option string) (s : State) : State :=
  mkState (view s) (input s) (loading s) (loadingStep s) (recording s)
    (solution s) v (activeSection s) (ecoStatus s) (selectedLanguage s)
    (hasApiKey s) (quotaError s) (researchError s) (liveSessionRef s)
    (audioContextRef s).

Definition setActiveSection (v : SectionType) (s : State) : State :=
  mkState (view s) (input s) (loading s) (loadingStep s) (recording s)
    (solution s) (illustrationUrl s) v (ecoStatus s) (selectedLanguage
    s) (hasApiKey s) (quotaError s) (researchError s) (liveSessionRef s)
    (audioContextRef s).

Definition setEcoStatus (v : option Json) (s : State) : State :=
  mkState (view s) (input s) (loading s) (loadingStep s) (recording s)
    (solution s) (illustrationUrl s) (activeSection s) v
    (selectedLanguage s) (hasApiKey s) (quotaError s) (researchError s)
    (liveSessionRef s) (audioContextRef s).

Definition setQuotaError (v : bool) (s : State) : State :=
  mkState (view s) (input s) (loading s) (loadingStep s) (recording s)
    (solution s) (illustrationUrl s) (activeSection s) (ecoStatus s)
    (selectedLanguage s) (hasApiKey s) v (researchError s)
    (liveSessionRef s) (audioContextRef s).

Definition setResearchError (v : option string) (s : State) : State :=
  mkState (view s) (input s) (loading s) (loadingStep s) (recording s)
    (solution s) (illustrationUrl s) (activeSection s) (ecoStatus s)
    (selectedLanguage s) (hasApiKey s) (quotaError s) v (liveSessionRef
    s) (audioContextRef s).

Definition set_liveSessionRef (v : bool) (s : State) : State :=
  mkState (view s) (input s) (loading s) (loadingStep s) (recording s)
    (solution s) (illustrationUrl s) (activeSection s) (ecoStatus s)
    (selectedLanguage s) (hasApiKey s) (quotaError s) (researchError s)
    v (audioContextRef s).

Definition set_audioContextRef (v : bool) (s : State) : State :=
  mkState (view s) (input s) (loading s) (loadingStep s) (recording s)
    (solution s) (illustrationUrl s) (activeSection s) (ecoStatus s)
    (selectedLanguage s) (hasApiKey s) (quotaError s) (researchError s)
    (liveSessionRef s) v.

Definition unresponsive : string :=
  "The environmental research node is currently unresponsive. Please refine your query parameters.".

Definition consulting : string := "Consulting Global Environmental Database...".

Definition synthesizing : string := "Synthesizing Scientific Visualizations...".

(** [stopLiveTranscription]: each reference that holds an object is closed
    and cleared; closing is taken to return. *)
Definition stopLiveTranscription (s : State) : State :=
  let s := if liveSessionRef s then set_liveSessionRef false s else s in
  let s := if audioContextRef s then set_audioContextRef false s else s in
  setRecording false s.

(** [handleSectionChange] *)
Definition handleSectionChange (id : SectionType) (s : State) : State :=
  let s := setActiveSection id s in
  let s := setView Dashboard s in
  let s := setSolution None s in
  setInput EmptyString s.

(** The [catch] and the [finally] of [performGlobalSearch]. *)
Definition search_catch (error : JsError) (s : State) : list Event * State :=
  let s := if is_quota_error error
           then setQuotaError true s
           else setResearchError (Some unresponsive) s in
  ([console_error_1 error], s).

Definition search_finally (s : State) : State :=
  let s := setLoading false s in
  setLoadingStep EmptyString s.

(** The steps of [performGlobalSearch] before its [try]. *)
Definition search_begin (s : State) : State :=
  let s := if recording s then stopLiveTranscription s else s in
  let s := setView Research s in
  let s := setLoading true s in
  let s := setResearchError None s in
  let s := setQuotaError false s in
  let s := setSolution None s in
  setIllustrationUrl None s.

Section Handlers.

Context {P : Platform} {MP : MediaPlatform} {E : Engine}.

(** The [try] block of [performGlobalSearch]: the events, the state, and
    the error when one is thrown. *)
Definition search_try (query : string) (s : State)
  : list Event * State * option JsError :=
  let s := setLoadingStep consulting s in
  match getEnvironmentalSolution query (activeSection s)
          (name (selectedLanguage s)) with
  | (tr1, Throw error) => (tr1, s, Some error)
  | (tr1, Normal result) =>
      let s := setSolution (Some result) s in
      let s := setLoadingStep synthesizing s in
      match visualPrompt_of result with
      | Throw error => (tr1, s, Some error)
      | Normal visualPrompt =>
          match illustrate (template_text visualPrompt) with
          | (tr2, Throw error) => ((tr1 ++ tr2)%list, s, Some error)
          | (tr2, Normal img) =>
              ((tr1 ++ tr2)%list, setIllustrationUrl (Some img) s, None)
          end
      end
  end.

(** [performGlobalSearch] *)
Definition performGlobalSearch (query : string) (s : State)
  : list Event * State :=
  if blank query then ([], s)
  else
    let s := search_begin s in
    match search_try query s with
    | (tr, s, None) => (tr, search_finally s)
    | (tr, s, Some error) =>
        let (tr', s) := search_catch error s in
        ((tr ++ tr')%list, search_finally s)
    end.

(** [handleSubmit] *)
Definition handleSubmit (s : State) : list Event * State :=
  performGlobalSearch (input s) s.

(** [fetchTelemetry] *)
Definition fetchTelemetry (s : State) : list Event * State :=
  let s := setQuotaError false s in
  match getEcoStatus None None (name (selectedLanguage s)) with
  | (tr, Normal status) => (tr, setEcoStatus (Some status) s)
  | (tr, Throw err) =>
      let s := if is_quota_error err then setQuotaError true s else s in
      ((tr ++ [console_error_1 err])%list, s)
  end.

(** What the Research view shows: the failure panel under
    [!loading && researchError], the result under
    [!loading && solution && !researchError]. *)
Definition shows_failure (s : State) : bool :=
  match view s with
  | Research => negb (loading s) && nonempty (researchError s)
  | Dashboard => false
  end.


End Handlers.

End App.

(** *** [ImageGeneratorTool] *)

Module ImageTool.

Record ImageGenerationResult : Type := mkResult {
  url : string;
  result_prompt : string;
  result_size : Media.ImageSize
}.

Record State : Type := mkState {
  prompt : string;
  size : Media.ImageSize;
  loading : bool;
  result : option ImageGenerationResult;
  error : option string
}.

Definition setLoading (v : bool) (s : State) : State :=
  mkState (prompt s) (size s) v (result s) (error s).

Definition setResult (v : option ImageGenerationResult) (s : State) : State :=
  mkState (prompt s) (size s) (loading s) v (error s).

Definition setError (v : option string) (s : State) : State :=
  mkState (prompt s) (size s) (loading s) (result s) v.

(** [err.message || "Failed to generate image."] *)
Definition message_or_failed (err : JsError) : string :=
  match err_message err with
  | Some (String c m) => String c m
  | _ => "Failed to generate image."
  end.

Section Handler.

Context {MP : MediaPlatform}.

(** [handleGenerate]: the events, the state, and whether the key selector
    was opened. *)
Definition handleGenerate (hasApiKey : bool) (s : State)
  : list Event * State * bool :=
  if blank (prompt s) then ([], s, false)
  else if negb hasApiKey then ([], s, true)
  else
    let s := setLoading true s in
    let s := setError None s in
    match generateProImage (prompt s) (size s) with
    | (tr, Normal url) =>
        let s := setResult (Some (mkResult url (prompt s) (size s))) s in
        (tr, setLoading false s, false)
    | (tr, Throw err) =>
        let s := setError (Some (message_or_failed err)) s in
        ((tr ++ [console_error_1 err])%list, setLoading false s, false)
    end.

End Handler.

End ImageTool.

(** *** [SustainabilityPlanner] *)

Module Planner.

Record State : Type := mkState {
  goal : string;
  loading : bool;
  plan : option Json
}.

Definition setLoading (v : bool) (s : State) : State :=
  mkState (goal s) v (plan s).

Definition setPlan (v : option Json) (s : State) : State :=
  mkState (goal s) (loading s) v.

Section Handler.

Context {P : Platform}.

(** [handleGenerate], for a parent whose state is [Parent] and whose
    [onSearch], when given, is a handler on that state. *)
Definition handleGenerate {Parent : Type} (language : string)
  (onSearch : option (string -> Parent -> list Event * Parent))
  (s : State) (parent : Parent) : list Event * State * Parent :=
  if blank (goal s) then ([], s, parent)
  else
    match onSearch with
    | Some search =>
        let (tr, parent) := search (goal s) parent in
        (tr, s, parent)
    | None =>
        let s := setLoading true s in
        match generateSustainabilityPlan (goal s) language with
        | (tr, Normal result) =>
            let s := setPlan (Some result) s in
            (tr, setLoading false s, parent)
        | (tr, Throw err) =>
            ((tr ++ [console_error_1 err])%list, setLoading false s, parent)
        end
    end.

End Handler.

End Planner.


(** An engine for runs that convert nothing but strings: asked for the text
    of anything else it throws, and it takes every number for non-zero. *)
Definition string_engine : Engine := {|
  ToString := fun _ =>
    Throw (mkError "TypeError" (Some "Cannot convert object to primitive value"));
  ToBoolean_number := fun _ => true
|}.

(** The application as it starts, in English. *)
Definition initial_app : App.State :=
  App.mkState App.Dashboard EmptyString false EmptyString false None None
    Climate None (App.mkLanguage "en" "English" "English") false false None
    false false.

(** A report that names its diagram, and its parsed value. *)
Definition illustrated_text : string :=
  js "{'topic': 'Ocean acidification', 'visualPrompt': 'pH scale of seawater'}".


Definition illustrated_response : Response :=
  grounded_response (Some illustrated_text) cited.

Definition acid_query : string := "ocean acidification".

(** ** String lemmas *)

Section StringFacts.

Lemma append_nil_r (s : string) : s ++ EmptyString = s.
Proof. induction s as [|c s IH]; simpl; [reflexivity | now rewrite IH]. Qed.

Lemma append_assoc (a b c : string) : (a ++ b) ++ c = a ++ (b ++ c).
Proof. induction a as [|x a IH]; simpl; [reflexivity | now rewrite IH]. Qed.

Lemma length_append (a b : string) :
  String.length (a ++ b) = String.length a + String.length b.
Proof. induction a as [|x a IH]; simpl; [reflexivity | now rewrite IH]. Qed.

Lemma match_count_append (c : ascii) (a b : string) :
  match_count c (a ++ b) = match_count c a + match_count c b.
Proof.
  induction a as [|x a IH]; simpl; [reflexivity |].
  rewrite IH. apply Nat.add_assoc.
Qed.

Lemma prefix_append (a b : string) : prefix a (a ++ b) = true.
Proof.
  induction a as [|x a IH]; simpl.
  - now destruct b.
  - destruct (ascii_dec x x) as [_|n]; [exact IH | now elim n].
Qed.

Lemma prefix_split (a s : string) :
  prefix a s = true -> exists r, s = a ++ r.
Proof.
  revert s. induction a as [|x a IH]; intros s H.
  - now exists s.
  - destruct s as [|y s]; simpl in H; [discriminate |].
    destruct (ascii_dec x y) as [->|_]; [| discriminate].
    destruct (IH _ H) as [r ->]. now exists r.
Qed.

Lemma includes_unfold (s t : string) :
  includes s t =
  prefix t s || match s with
                | EmptyString => false
                | String _ s' => includes s' t
                end.
Proof. destruct s; reflexivity. Qed.

(** [includes] is the substring relation. *)
Lemma includes_spec (s t : string) :
  includes s t = true <-> exists l r, s = l ++ t ++ r.
Proof.
  split.
  - induction s as [|c s IH]; simpl; intros H.
    + destruct t; [now exists EmptyString, EmptyString | discriminate].
    + apply orb_true_iff in H as [H|H].
      * change (prefix t (String c s) = true) in H.
        apply prefix_split in H as [r Hr]. exists EmptyString, r. exact Hr.
      * destruct (IH H) as (l & r & ->). now exists (String c l), r.
  - intros (l & r & ->). induction l as [|c l IH].
    + simpl (EmptyString ++ _).
      now rewrite includes_unfold, prefix_append.
    + simpl. rewrite IH. apply orb_true_r.
Qed.

Lemma endsWith_unfold (s suffix : string) :
  endsWith s suffix =
  (s =? suffix)%string || match s with
                          | EmptyString => false
                          | String _ s' => endsWith s' suffix
                          end.
Proof. destruct s; reflexivity. Qed.

Lemma endsWith_spec (s suffix : string) :
  endsWith s suffix = true <-> exists l, s = l ++ suffix.
Proof.
  split.
  - induction s as [|c s IH]; rewrite endsWith_unfold; intros H.
    + rewrite orb_false_r in H. apply String.eqb_eq in H as <-.
      now exists EmptyString.
    + apply orb_true_iff in H as [H|H].
      * apply String.eqb_eq in H as <-. now exists EmptyString.
      * destruct (IH H) as [l ->]. now exists (String c l).
  - intros [l ->]. induction l as [|c l IH].
    + simpl (EmptyString ++ _). now rewrite endsWith_unfold, String.eqb_refl.
    + simpl (String c l ++ _). rewrite endsWith_unfold, IH. apply orb_true_r.
Qed.

Lemma all_ws_append (a b : string) :
  all_ws (a ++ b) = all_ws a && all_ws b.
Proof.
  induction a as [|x a IH]; simpl; [reflexivity |].
  now rewrite IH, andb_assoc.
Qed.

Lemma trimStart_split (s : string) :
  exists l, s = l ++ trimStart s /\ all_ws l = true.
Proof.
  induction s as [|c s (l & Hl & Hw)]; simpl.
  - now exists EmptyString.
  - destruct (isWhiteSpace c) eqn:E.
    + exists (String c l). simpl. rewrite E, Hw. split; [now f_equal | reflexivity].
    + now exists EmptyString.
Qed.

Lemma trimEnd_split (s : string) :
  exists r, s = trimEnd s ++ r /\ all_ws r = true.
Proof.
  induction s as [|c s (r & Hr & Hw)]; simpl.
  - now exists EmptyString.
  - destruct (trimEnd s) as [|d t] eqn:E.
    + destruct (isWhiteSpace c) eqn:Ec.
      * exists (String c r). simpl in *. rewrite Ec, Hw. split; [now f_equal | reflexivity].
      * exists r. simpl in *. split; [now f_equal | exact Hw].
    + exists r. simpl in *. split; [now f_equal | exact Hw].
Qed.

(** [trim] only removes whitespace from the two ends. *)
Lemma trim_split (s : string) :
  exists l r, s = l ++ trim s ++ r /\ all_ws l = true /\ all_ws r = true.
Proof.
  destruct (trimStart_split s) as (l & Hl & Hwl).
  destruct (trimEnd_split (trimStart s)) as (r & Hr & Hwr).
  exists l, r. unfold trim. now rewrite <- Hr.
Qed.

End StringFacts.


(** ** The repair engine *)

Section Repair.

Lemma appended_length (b : bool) (c : ascii) :
  String.length (appended b (String c EmptyString)) <= 1.
Proof. destruct b; simpl; lia. Qed.

Lemma match_count_dq (c : ascii) (t : string) :
  Ascii.eqb dquote c = false ->
  match_count c (t ++ dq) = match_count c t.
Proof.
  intros H. rewrite match_count_append.
  change (match_count c dq) with ((if Ascii.eqb dquote c then 1 else 0) + 0).
  rewrite H. lia.
Qed.

(** What [tryRepairJson] returns, with the three tests read on the trimmed
    input. *)
Lemma tryRepairJson_shape (s : string) :
  let t := trim s in
  tryRepairJson s =
    if endsWith t "}" then t
    else t ++ appended (negb (endsWith t dq)) dq
           ++ appended (match_count "]" t <? match_count "[" t) "]"
           ++ appended (match_count "}" t <? match_count "{" t) "}".
Proof.
  intros t. unfold tryRepairJson. fold t.
  destruct (endsWith t "}"); simpl negb; cbv iota; [reflexivity |].
  assert (Hq : forall c, Ascii.eqb dquote c = false ->
             match_count c (if endsWith t dq then t else t ++ dq)
             = match_count c t).
  { intros c Hc. destruct (endsWith t dq); [reflexivity |].
    now apply match_count_dq. }
  cbv zeta. rewrite !Hq by reflexivity.
  set (t1 := if endsWith t dq then t else t ++ dq).
  assert (E1 : t1 = t ++ appended (negb (endsWith t dq)) dq).
  { unfold t1. destruct (endsWith t dq); simpl; [now rewrite append_nil_r | reflexivity]. }
  assert (Hb : forall u, match_count "}" (if match_count "]" t <? match_count "[" t
                                           then u ++ "]" else u)
                         = match_count "}" u
                      /\ match_count "{" (if match_count "]" t <? match_count "[" t
                                           then u ++ "]" else u)
                         = match_count "{" u).
  { intros u. destruct (match_count "]" t <? match_count "[" t);
      [rewrite !match_count_append; simpl; lia | split; reflexivity]. }
  destruct (Hb t1) as [-> ->].
  rewrite !Hq by reflexivity.
  rewrite E1.
  destruct (match_count "]" t <? match_count "[" t);
    destruct (match_count "}" t <? match_count "{" t);
    simpl appended; rewrite ?append_assoc, ?append_nil_r; reflexivity.
Qed.

End Repair.

(** ** Trimming text that ends with a closing brace *)

Section TrimClosed.

Lemma trimStart_id (s : string) : starts_with_ws s = false -> trimStart s = s.
Proof. destruct s as [|c s]; simpl; [reflexivity | now intros ->]. Qed.

Lemma trimEnd_keeps (l : string) (c : ascii) :
  isWhiteSpace c = false ->
  trimEnd (l ++ String c EmptyString) = l ++ String c EmptyString.
Proof.
  intros Hc. induction l as [|x l IH]; simpl.
  - now rewrite Hc.
  - rewrite IH. now destruct l.
Qed.

Lemma trimStart_keeps_suffix (s : string) (c : ascii) :
  isWhiteSpace c = false ->
  endsWith s (String c EmptyString) = true ->
  endsWith (trimStart s) (String c EmptyString) = true.
Proof.
  intros Hc. induction s as [|x s IH]; intros H; [exact H |].
  simpl trimStart. destruct (isWhiteSpace x) eqn:Ex; [| exact H].
  apply IH. rewrite endsWith_unfold in H.
  apply orb_true_iff in H as [H|H]; [| exact H].
  apply String.eqb_eq in H. injection H as -> _. congruence.
Qed.

(** On text that ends with a closing brace the repair is the trim, and the
    trim only drops leading whitespace. *)
Lemma tryRepairJson_closed (s : string) :
  endsWith s "}" = true ->
  tryRepairJson s = trim s /\ trim s = trimStart s.
Proof.
  intros H.
  assert (Hs : endsWith (trimStart s) "}" = true)
    by now apply trimStart_keeps_suffix.
  assert (Ht : trim s = trimStart s).
  { unfold trim. apply endsWith_spec in Hs as [l ->].
    now apply trimEnd_keeps. }
  split; [| exact Ht].
  pose proof (tryRepairJson_shape s) as E. cbv zeta in E.
  now rewrite Ht, Hs, <- Ht in E.
Qed.

End TrimClosed.

(** ** The error classifier *)

Section Classifier.

Lemma is_quota_message_spec (msg : string) :
  is_quota_message msg = true <-> quota_signal msg.
Proof.
  unfold is_quota_message, quota_signal, contains.
  rewrite orb_true_iff, !includes_spec. reflexivity.
Qed.

Lemma classified_quota (e : JsError) :
  quota_signal (message_or_empty e) ->
  classified e = new_Error "API_QUOTA_EXCEEDED".
Proof.
  intros H. apply is_quota_message_spec in H. unfold classified. now rewrite H.
Qed.

Lemma classified_other (e : JsError) :
  ~ quota_signal (message_or_empty e) -> classified e = e.
Proof.
  intros H. unfold classified.
  destruct (is_quota_message (message_or_empty e)) eqn:E; [| reflexivity].
  elim H. now apply is_quota_message_spec.
Qed.

(** The catch block, in one piece. *)
Lemma on_request_error_run (T : Type) (e : JsError) :
  @on_request_error T e = (error_log e, Throw (classified e)).
Proof.
  unfold on_request_error, error_log, classified.
  destruct (is_quota_message (message_or_empty e)); reflexivity.
Qed.

Lemma safeGenAIRequest_throw (T : Type) (requestFn : unit -> M T)
  (tr : list Event) (e : JsError) :
  requestFn tt = (tr, Throw e) ->
  safeGenAIRequest requestFn = ((tr ++ error_log e)%list, Throw (classified e)).
Proof.
  intros H. unfold safeGenAIRequest, try_catch.
  now rewrite H, on_request_error_run.
Qed.

End Classifier.

(** ** The grounding extractor *)

Section Grounding.

Lemma push_chunk_spec (sources : list GroundingSource) (chunk : GroundingChunk) :
  push_chunk sources chunk = (sources ++ kept_sources [chunk])%list.
Proof.
  unfold push_chunk, kept_sources, complete_chunk, source_of, web_uri, web_title.
  destruct chunk as [[[[[|a u]|] [[|b t]|]]|]];
    simpl; now rewrite ?app_nil_r.
Qed.

Lemma fold_push_chunk (chunks : list GroundingChunk) :
  forall sources,
    fold_left push_chunk chunks sources = (sources ++ kept_sources chunks)%list.
Proof.
  induction chunks as [|c chunks IH]; intros sources; simpl.
  - now rewrite app_nil_r.
  - rewrite IH, push_chunk_spec, <- app_assoc. f_equal.
    unfold kept_sources. simpl. now destruct (complete_chunk c).
Qed.

Lemma extractSources_spec (response : Response) :
  extractSources response =
  match first_groundingChunks response with
  | Some chunks => kept_sources chunks
  | None => []
  end.
Proof.
  unfold extractSources.
  destruct (first_groundingChunks response) as [chunks|]; [| reflexivity].
  apply fold_push_chunk.
Qed.

End Grounding.

(** ** The request builder *)

Section Containment.

Lemma contains_append_l (s t needle : string) :
  contains t needle -> contains (s ++ t) needle.
Proof.
  intros (l & r & ->). exists (s ++ l), r. now rewrite append_assoc.
Qed.

Lemma contains_head (needle r : string) : contains (needle ++ r) needle.
Proof. now exists EmptyString, r. Qed.

Lemma contains_literal (s needle : string) :
  includes s needle = true -> contains s needle.
Proof. apply includes_spec. Qed.

End Containment.

(** ** Objects *)

Section Objects.

Lemma get_set_same (o : JsObject.props) (k : string) (v : Json) :
  JsObject.get (JsObject.set o k v) k = Some v.
Proof.
  induction o as [|[k' v'] o IH]; simpl.
  - now rewrite String.eqb_refl.
  - destruct (String.eqb k' k) eqn:E; simpl; now rewrite E.
Qed.

Lemma get_set_other (o : JsObject.props) (k k0 : string) (v : Json) :
  k0 <> k ->
  JsObject.get (JsObject.set o k v) k0 = JsObject.get o k0.
Proof.
  intros Hk. induction o as [|[k' v'] o IH]; simpl.
  - destruct (String.eqb_spec k k0); [congruence | reflexivity].
  - destruct (String.eqb_spec k' k) as [->|Hne]; simpl.
    + destruct (String.eqb_spec k k0); [congruence | reflexivity].
    + destruct (String.eqb k' k0); [reflexivity | exact IH].
Qed.

End Objects.

(** ** Closed forms of the three operations *)

(** Case analysis on what the platform answers. *)
Ltac platform_cases :=
  repeat match goal with
    | |- context [match generateContent ?r with _ => _ end] =>
        destruct (generateContent r)
    | |- context [match JSON_parse ?s with _ => _ end] =>
        destruct (JSON_parse s)
    end.

Section Runs.

Context {P : Platform}.

(** Every path of [getEnvironmentalSolution]. *)
Lemma getEnvironmentalSolution_run (prompt : string) (section : SectionType)
  (languageName : string) :
  let req := researchRequest prompt section languageName in
  getEnvironmentalSolution prompt section languageName =
  match generateContent req with
  | Throw e => (EvGenerate req :: error_log e, Throw (classified e))
  | Normal response =>
      let jsonText := text_or_braces response in
      match JSON_parse jsonText with
      | Normal data =>
          ([EvGenerate req; EvParse jsonText],
           Normal (with_sources data (extractSources response)))
      | Throw parseError =>
          match JSON_parse (tryRepairJson jsonText) with
          | Normal v => (repair_attempt req jsonText parseError, Normal v)
          | Throw e =>
              ((repair_attempt req jsonText parseError ++ error_log e)%list,
               Throw (classified e))
          end
      end
  end.
Proof.
  intros req.
  unfold getEnvironmentalSolution, safeGenAIRequest, call_generateContent,
    call_JSON_parse, call_tryRepairJson, console_warn.
  fold req. simpl. platform_cases; simpl;
    rewrite ?on_request_error_run; reflexivity.
Qed.

(** Every path of an operation that parses the text once. *)
Lemma parse_once_run (req : Request) :
  safeGenAIRequest (fun _ =>
    response <- call_generateContent req ;;
    call_JSON_parse (text_or_braces response)) =
  match generateContent req with
  | Throw e => (EvGenerate req :: error_log e, Throw (classified e))
  | Normal response =>
      let jsonText := text_or_braces response in
      match JSON_parse jsonText with
      | Normal data => ([EvGenerate req; EvParse jsonText], Normal data)
      | Throw e =>
          ([EvGenerate req; EvParse jsonText] ++ error_log e,
           Throw (classified e))%list
      end
  end.
Proof.
  unfold safeGenAIRequest, call_generateContent, call_JSON_parse. simpl.
  platform_cases; simpl; rewrite ?on_request_error_run; reflexivity.
Qed.

(** Any task whose backend call fails. *)
Lemma run_after_backend_failure (t : Task) (e : JsError) :
  generateContent (task_request t) = Throw e ->
  run_task t = (EvGenerate (task_request t) :: error_log e, Throw (classified e)).
Proof.
  intros Hgen. destruct t; simpl run_task; simpl task_request in *;
    unfold generateSustainabilityPlan, getEcoStatus;
    rewrite ?getEnvironmentalSolution_run, ?parse_once_run; cbv zeta;
    now rewrite Hgen.
Qed.

(** Any task whose response text parses at once. *)
Lemma run_after_parse (t : Task) (response : Response) (data : Json) :
  generateContent (task_request t) = Normal response ->
  JSON_parse (text_or_braces response) = Normal data ->
  run_task t =
  ([EvGenerate (task_request t); EvParse (text_or_braces response)],
   Normal (if is_research t
           then with_sources data (extractSources response)
           else data)).
Proof.
  intros Hgen Hparse. destruct t; simpl run_task; simpl task_request in *;
    unfold generateSustainabilityPlan, getEcoStatus;
    rewrite ?getEnvironmentalSolution_run, ?parse_once_run; cbv zeta;
    now rewrite Hgen, Hparse.
Qed.

(** Any task whose response text does not parse. *)
Lemma run_after_failed_parse (t : Task) (response : Response)
  (parseError : JsError) :
  generateContent (task_request t) = Normal response ->
  JSON_parse (text_or_braces response) = Throw parseError ->
  let req := task_request t in
  let jsonText := text_or_braces response in
  run_task t =
  if is_research t then
    match JSON_parse (tryRepairJson jsonText) with
    | Normal v => (repair_attempt req jsonText parseError, Normal v)
    | Throw e =>
        ((repair_attempt req jsonText parseError ++ error_log e)%list,
         Throw (classified e))
    end
  else
    (([EvGenerate req; EvParse jsonText] ++ error_log parseError)%list,
     Throw (classified parseError)).
Proof.
  intros Hgen Hparse. destruct t; simpl run_task; simpl task_request in *;
    unfold generateSustainabilityPlan, getEcoStatus;
    rewrite ?getEnvironmentalSolution_run, ?parse_once_run; cbv zeta;
    now rewrite Hgen, Hparse.
Qed.

End Runs.

(** ** Traces *)

Section Traces.

Lemma repairs_app (a b : list Event) :
  repairs (a ++ b) = repairs a + repairs b.
Proof.
  induction a as [|ev a IH]; simpl; [reflexivity |].
  destruct ev; simpl; now rewrite IH.
Qed.

Lemma parses_app (a b : list Event) :
  parses (a ++ b) = (parses a ++ parses b)%list.
Proof.
  induction a as [|ev a IH]; simpl; [reflexivity |].
  destruct ev; simpl; now rewrite IH.
Qed.

(** The error log holds no call of the repair or of the parser. *)
Lemma error_log_quiet (e : JsError) :
  repairs (error_log e) = 0 /\ parses (error_log e) = [].
Proof.
  unfold error_log. now destruct (is_quota_message (message_or_empty e)).
Qed.

Lemma repairs_before_log (tr : list Event) (e : JsError) :
  repairs (tr ++ error_log e) = repairs tr.
Proof.
  rewrite repairs_app, (proj1 (error_log_quiet e)). apply Nat.add_0_r.
Qed.

Lemma parses_before_log (tr : list Event) (e : JsError) :
  parses (tr ++ error_log e) = parses tr.
Proof.
  rewrite parses_app, (proj2 (error_log_quiet e)). apply app_nil_r.
Qed.

End Traces.

(** ** The model at work *)

Section Examples.

Example trim_strips_both_ends :
  trim (String "009" "  a b " ++ String "010" (String "160" EmptyString))
  = "a b".
Proof. reflexivity. Qed.

(** The reference parser on well-formed and on malformed text. *)
Example parse_nested_document :
  JsonParser.parse
    (js " {'topic': 'Smog', 'causes': ['traffic', 'coal'], 'n': -1.5e3, 'ok': true, 'x': null} ")
  = Normal (JObject [("topic", JString "Smog");
                     ("causes", JArray [JString "traffic"; JString "coal"]);
                     ("n", JNumber "-1.5e3"); ("ok", JBool true);
                     ("x", JNull)]).
Proof. reflexivity. Qed.

Example parse_duplicate_member_last_wins :
  JsonParser.parse (js "{'a': 1, 'b': 2, 'a': 3}")
  = Normal (JObject [("a", JNumber "3"); ("b", JNumber "2")]).
Proof. reflexivity. Qed.

Example parse_escapes :
  JsonParser.parse (js "['A\n', '\\']")
  = Normal (JArray [JString (String "A" (String "010" EmptyString));
                    JString "\"]).
Proof. reflexivity. Qed.

Example parse_rejects_leading_zero :
  JsonParser.parse "01"
  = Throw (new_SyntaxError "Unexpected number in JSON at position 1").
Proof. reflexivity. Qed.

Example parse_rejects_trailing_comma :
  JsonParser.parse trailing_comma_text = Throw trailing_comma_error.
Proof. reflexivity. Qed.

Example parse_rejects_truncation :
  JsonParser.parse truncated_text
  = Throw (new_SyntaxError "Unexpected end of JSON input").
Proof. reflexivity. Qed.

Example parse_rejects_vertical_tab :
  is_throw (JsonParser.parse (String "011" "{}")) = true
  /\ trim (String "011" "{}") = "{}".
Proof. split; reflexivity. Qed.

(** A backend that answers 429 makes every task fail with the quota error. *)
Example quota_for_every_task (t : Task) :
  @run_task (answering (Throw (new_Error "429 Too Many Requests"))) t
  = ([EvGenerate (task_request t)], Throw (new_Error "API_QUOTA_EXCEEDED")).
Proof.
  now rewrite (@run_after_backend_failure
                 (answering (Throw (new_Error "429 Too Many Requests"))) t
                 (new_Error "429 Too Many Requests") eq_refl).
Qed.

(** A research report that is repaired comes back as parsed: the grounding
    chunks of the response are not attached on that path. *)
Example repaired_report_has_no_sources :
  extractSources (grounded_response (Some truncated_text) cited)
  = [mkSource "A" "https://a.example"]
  /\ outcome (@run_task
                (answering (Normal (grounded_response (Some truncated_text) cited)))
                english_report)
     = Normal (JObject [("title", JString "A week of less waste")]).
Proof. split; reflexivity. Qed.

End Examples.

(** * The claims *)

(** ** C1: repair on a failed strict parse *)

(** C1, as stated, fails: a plan whose text is cut off inside a string does
    not parse, and [generateSustainabilityPlan] fails without ever calling the
    repair, although the repaired text parses; [getEnvironmentalSolution]
    on the same response repairs it and succeeds. *)
Lemma C1_counterexample_plan_never_repairs :
  is_throw (JsonParser.parse truncated_text) = true
  /\ repairs (trace (@run_task (answering (Normal truncated_response))
                       english_plan)) = 0
  /\ is_throw (outcome (@run_task (answering (Normal truncated_response))
                          english_plan)) = true
  /\ JsonParser.parse (tryRepairJson truncated_text)
     = Normal (JObject [("title", JString "A week of less waste")])
  /\ repairs (trace (@run_task (answering (Normal truncated_response))
                       english_report)) = 1
  /\ outcome (@run_task (answering (Normal truncated_response)) english_report)
     = Normal (JObject [("title", JString "A week of less waste")]).
Proof. repeat split; vm_compute; reflexivity. Qed.

(** C1, amended. When the strict parse of the response text fails,
    [getEnvironmentalSolution] warns, calls the repair exactly once on that
    text and parses the repaired text, whose result decides the outcome;
    [generateSustainabilityPlan] and [getEcoStatus] parse the text once, never
    call the repair, and fail with the (classified) parse error. *)
Theorem C1_repair_once_in_research_only {P : Platform}
  (t : Task) (response : Response) (parseError : JsError) :
  generateContent (task_request t) = Normal response ->
  JSON_parse (text_or_braces response) = Throw parseError ->
  let req := task_request t in
  let jsonText := text_or_braces response in
  let tr := trace (run_task t) in
  if is_research t then
    (exists rest,
       tr = (repair_attempt req jsonText parseError ++ rest)%list
       /\ repairs rest = 0 /\ parses rest = [])
    /\ repairs tr = 1
    /\ parses tr = [jsonText; tryRepairJson jsonText]
    /\ outcome (run_task t)
       = match JSON_parse (tryRepairJson jsonText) with
         | Normal v => Normal v
         | Throw e => Throw (classified e)
         end
  else
    tr = ([EvGenerate req; EvParse jsonText] ++ error_log parseError)%list
    /\ repairs tr = 0
    /\ parses tr = [jsonText]
    /\ outcome (run_task t) = Throw (classified parseError).
Proof.
  intros Hgen Hparse req jsonText tr. subst tr.
  pose proof (run_after_failed_parse t response parseError Hgen Hparse) as E.
  cbv zeta in E. fold req jsonText in E. rewrite E. clear E.
  destruct (is_research t).
  - destruct (JSON_parse (tryRepairJson jsonText)) as [v|e]; unfold trace, outcome;
      cbn [fst snd].
    + split; [| now repeat split].
      exists []. now rewrite app_nil_r.
    + rewrite repairs_before_log, parses_before_log.
      split; [| now repeat split].
      exists (error_log e). split; [reflexivity | apply error_log_quiet].
  - unfold trace, outcome; cbn [fst snd].
    rewrite repairs_before_log, parses_before_log. now repeat split.
Qed.

Lemma C1_repair_once_witness :
  @generateContent (answering (Normal truncated_response))
    (task_request english_report) = Normal truncated_response
  /\ @JSON_parse (answering (Normal truncated_response))
       (text_or_braces truncated_response)
     = Throw (new_SyntaxError "Unexpected end of JSON input")
  /\ repairs (trace (@run_task (answering (Normal truncated_response))
                       english_report)) = 1.
Proof.
  split; [reflexivity | split; [reflexivity |]].
  exact (proj1 (proj2 (@C1_repair_once_in_research_only
                         (answering (Normal truncated_response)) english_report
                         truncated_response
                         (new_SyntaxError "Unexpected end of JSON input")
                         eq_refl eq_refl))).
Defined.

(** ** C2: grounding attachment *)

(** C2, as stated, fails: [getEcoStatus] enables the search tool, and on a
    well-formed response that carries a complete grounding chunk it returns
    the parsed object with no [sources] property at all. *)
Lemma C2_counterexample_status_has_no_sources :
  search_grounded english_status = true
  /\ extractSources status_response = [mkSource "A" "https://a.example"]
  /\ outcome (@run_task (answering (Normal status_response)) english_status)
     = Normal status_value
  /\ field status_value "sources" = None.
Proof. repeat split; vm_compute; reflexivity. Qed.

(** C2, amended. When the strict parse succeeds, [getEnvironmentalSolution]
    returns an object that has the properties of the parsed value and a
    [sources] array holding the extracted grounding sources (possibly none);
    [generateSustainabilityPlan] and [getEcoStatus] return the parsed value as
    it is, with nothing attached. *)
Theorem C2_sources_attached_on_strict_parse {P : Platform}
  (t : Task) (response : Response) (data : Json) :
  generateContent (task_request t) = Normal response ->
  JSON_parse (text_or_braces response) = Normal data ->
  if is_research t then
    exists fields,
      outcome (run_task t) = Normal (JObject fields)
      /\ JsObject.get fields "sources"
         = Some (JArray (map source_value (extractSources response)))
      /\ (forall k, k <> "sources" ->
            JsObject.get fields k = JsObject.get (JsObject.spread data) k)
  else outcome (run_task t) = Normal data.
Proof.
  intros Hgen Hparse.
  rewrite (run_after_parse t response data Hgen Hparse).
  destruct (is_research t); [| reflexivity].
  eexists. split; [reflexivity | split].
  - apply get_set_same.
  - intros k Hk. now apply get_set_other.
Qed.

Lemma C2_sources_attached_witness :
  @generateContent (answering (Normal report_response))
    (task_request english_report) = Normal report_response
  /\ @JSON_parse (answering (Normal report_response))
       (text_or_braces report_response)
     = Normal (JObject [("topic", JString "Ocean acidification");
                        ("section", JString "Water")])
  /\ exists fields,
       outcome (@run_task (answering (Normal report_response)) english_report)
       = Normal (JObject fields)
       /\ JsObject.get fields "sources"
          = Some (JArray [source_value (mkSource "A" "https://a.example");
                          source_value (mkSource "B" "https://b.example")])
       /\ JsObject.get fields "section" = Some (JString "Water").
Proof.
  split; [reflexivity | split; [reflexivity |]].
  destruct (@C2_sources_attached_on_strict_parse
              (answering (Normal report_response)) english_report
              report_response _ eq_refl eq_refl) as (fields & Ho & Hs & Hk).
  exists fields. split; [exact Ho | split; [exact Hs |]].
  rewrite Hk; [reflexivity | discriminate].
Defined.

(** ** C3: classification of failures *)

(** C3. Whenever the wrapped request throws, the wrapper throws too, and what
    it throws has one of two forms: the quota error when the message of the
    failure contains 429 or RESOURCE_EXHAUSTED, and otherwise the original
    failure itself, message included. *)
Theorem C3_classification_total (T : Type) (requestFn : unit -> M T)
  (error : JsError) :
  outcome (requestFn tt) = Throw error ->
  let result := outcome (safeGenAIRequest requestFn) in
  (quota_signal (message_or_empty error) ->
     result = Throw (new_Error "API_QUOTA_EXCEEDED"))
  /\ (~ quota_signal (message_or_empty error) ->
     result = Throw error /\
     (forall e', result = Throw e' -> err_message e' = err_message error))
  /\ (result = Throw (new_Error "API_QUOTA_EXCEEDED") \/ result = Throw error).
Proof.
  intros H result. subst result.
  destruct (requestFn tt) as [tr c] eqn:E. simpl in H. subst c.
  rewrite (safeGenAIRequest_throw _ _ _ _ E). unfold outcome. cbn [snd].
  split; [| split].
  - intros Hq. now rewrite classified_quota.
  - intros Hq. rewrite classified_other by assumption.
    split; [reflexivity |]. now intros e' [= <-].
  - unfold classified.
    destruct (is_quota_message (message_or_empty error)); [now left | now right].
Qed.

Lemma C3_classification_witness :
  outcome (too_many_requests tt) = Throw (new_Error "429 Too Many Requests")
  /\ outcome (safeGenAIRequest too_many_requests)
     = Throw (new_Error "API_QUOTA_EXCEEDED").
Proof.
  split; [reflexivity |].
  apply (C3_classification_total Response too_many_requests
           (new_Error "429 Too Many Requests") eq_refl).
  left. now exists EmptyString, " Too Many Requests".
Defined.

(** ** C4: the repair policy *)

(** C4. Repair is one pass over the trimmed input: text that ends with a
    closing brace is returned as trimmed; otherwise a double quote is appended
    unless one already ends the text, then one closing bracket when the
    opening brackets outnumber the closing ones, then one closing brace when
    the opening braces outnumber the closing ones; never more than one token
    of a kind, whatever the nesting depth. *)
Theorem C4_repair_one_pass_policy :
  (forall s : string,
     let t := trim s in
     (endsWith t "}" = true -> tryRepairJson s = t) /\
     (endsWith t "}" = false ->
      tryRepairJson s =
        t ++ appended (negb (endsWith t dq)) dq
          ++ appended (match_count "]" t <? match_count "[" t) "]"
          ++ appended (match_count "}" t <? match_count "{" t) "}"))
  /\ tryRepairJson (js "{'a': 'hello") = js "{'a': 'hello'}"
  /\ tryRepairJson (js "{'list': ['x', 'y'") = js "{'list': ['x', 'y']}"
  /\ tryRepairJson (js "{'a': {'b': [[['x") = js "{'a': {'b': [[['x']}".
Proof.
  split; [| repeat split; reflexivity].
  intros s t. pose proof (tryRepairJson_shape s) as H. cbv zeta in H. fold t in H.
  split; intros E; rewrite E in H; exact H.
Qed.

(** ** C5: failure after the one repair *)

(** C5, as stated, fails twice.  Text that ends with a closing brace is
    still trimmed, so the repair is not always a no-op there, and the second
    parse can succeed where the first failed.  And when both parses fail, the
    error that reaches the caller is not always that parse error: one whose
    message contains 429 is replaced by the quota error. *)
Lemma C5_counterexample_closed_text_repaired_or_reclassified :
  (endsWith padded_text "}" = true
   /\ is_throw (JsonParser.parse padded_text) = true
   /\ String.eqb (tryRepairJson padded_text) padded_text = false
   /\ outcome (@run_task (answering (Normal (mkResponse (Some padded_text) None)))
                 english_report)
      = Normal (JObject []))
  /\ (JsonParser.parse comma_at_429 = Throw position_429_error
      /\ JsonParser.parse (tryRepairJson comma_at_429) = Throw position_429_error
      /\ outcome (@run_task
                    (answering (Normal (mkResponse (Some comma_at_429) None)))
                    english_report)
         = Throw (new_Error "API_QUOTA_EXCEEDED")).
Proof. repeat split; vm_compute; reflexivity. Qed.

(** C5, amended. When the strict parse of the response text fails and the
    parse of the once-repaired text fails too, [getEnvironmentalSolution]
    fails as a whole: it returns no value; it has called the backend once,
    the repair once and the parser twice; it throws the second parse error,
    or the quota error in its place when that error's message contains 429 or
    RESOURCE_EXHAUSTED; and a caller who tries again gets the same calls all
    over, nothing being kept from the failed attempt.  For text that ends
    with a closing brace the repair only trims; when such text has no leading
    whitespace the repair is a no-op and the second parse fails with the very
    error of the first. *)
Theorem C5_single_repair_then_failure {P : Platform}
  (prompt : string) (section : SectionType) (languageName : string)
  (response : Response) (e1 e2 : JsError) :
  let req := researchRequest prompt section languageName in
  let jsonText := text_or_braces response in
  let run := getEnvironmentalSolution prompt section languageName in
  generateContent req = Normal response ->
  JSON_parse jsonText = Throw e1 ->
  JSON_parse (tryRepairJson jsonText) = Throw e2 ->
  (outcome run = Throw (classified e2)
   /\ (quota_signal (message_or_empty e2) ->
       outcome run = Throw (new_Error "API_QUOTA_EXCEEDED"))
   /\ (~ quota_signal (message_or_empty e2) -> outcome run = Throw e2))
  /\ trace run = (repair_attempt req jsonText e1 ++ error_log e2)%list
  /\ repairs (trace run) = 1
  /\ parses (trace run) = [jsonText; tryRepairJson jsonText]
  /\ trace (try_catch run (fun _ => run)) = (trace run ++ trace run)%list
  /\ (endsWith jsonText "}" = true -> tryRepairJson jsonText = trim jsonText)
  /\ (endsWith jsonText "}" = true -> starts_with_ws jsonText = false ->
      tryRepairJson jsonText = jsonText /\ e2 = e1).
Proof.
  intros req jsonText run Hgen H1 H2.
  assert (E : run = ((repair_attempt req jsonText e1 ++ error_log e2)%list,
                     Throw (classified e2))).
  { pose proof (run_after_failed_parse
                  (ResearchReport prompt section languageName)
                  response e1 Hgen H1) as E.
    cbv zeta in E. simpl is_research in E. cbv iota in E.
    fold jsonText in E. rewrite H2 in E. exact E. }
  rewrite E. unfold trace, outcome, try_catch. cbn [fst snd].
  rewrite repairs_before_log, parses_before_log.
  split; [split; [reflexivity | split] |].
  - intros Hq. now rewrite classified_quota.
  - intros Hq. now rewrite classified_other.
  - split; [reflexivity | split; [reflexivity | split; [reflexivity |]]].
    split; [reflexivity | split].
    + intros Hc. now apply tryRepairJson_closed.
    + intros Hc Hw. destruct (tryRepairJson_closed jsonText Hc) as [Ha Hb].
      assert (Hid : tryRepairJson jsonText = jsonText)
        by (rewrite Ha, Hb; now apply trimStart_id).
      split; [exact Hid | rewrite Hid in H2; congruence].
Qed.

Lemma C5_single_repair_witness :
  @generateContent
    (answering (Normal (mkResponse (Some trailing_comma_text) None)))
    (researchRequest "smog" Air "English")
  = Normal (mkResponse (Some trailing_comma_text) None)
  /\ JsonParser.parse trailing_comma_text = Throw trailing_comma_error
  /\ JsonParser.parse (tryRepairJson trailing_comma_text)
     = Throw trailing_comma_error
  /\ outcome (@getEnvironmentalSolution
                (answering (Normal (mkResponse (Some trailing_comma_text) None)))
                "smog" Air "English")
     = Throw trailing_comma_error.
Proof.
  split; [reflexivity | split; [reflexivity | split; [reflexivity |]]].
  exact (proj1 (proj1 (@C5_single_repair_then_failure
                  (answering (Normal (mkResponse (Some trailing_comma_text) None)))
                  "smog" Air "English"
                  (mkResponse (Some trailing_comma_text) None)
                  trailing_comma_error trailing_comma_error
                  eq_refl eq_refl eq_refl))).
Defined.

(** ** C6: parse failures and the classifier *)

(** C6, as stated, fails: the backend call succeeds, both parses fail with an
    error at index 429, and the caller receives the quota error. *)
Lemma C6_counterexample_parse_error_reclassified :
  @generateContent (answering (Normal (mkResponse (Some comma_at_429) None)))
    (task_request english_report)
  = Normal (mkResponse (Some comma_at_429) None)
  /\ @final_parse_failure
       (answering (Normal (mkResponse (Some comma_at_429) None)))
       english_report (mkResponse (Some comma_at_429) None) position_429_error
  /\ err_message position_429_error
     = Some "Unexpected token , in JSON at position 429"
  /\ outcome (@run_task
                (answering (Normal (mkResponse (Some comma_at_429) None)))
                english_report)
     = Throw (new_Error "API_QUOTA_EXCEEDED")
  /\ outcome (@run_task
                (answering (Normal (mkResponse (Some comma_at_429) None)))
                english_plan)
     = Throw (new_Error "API_QUOTA_EXCEEDED").
Proof. repeat split; vm_compute; reflexivity. Qed.

(** C6, amended. The parse calls sit inside the function that
    [safeGenAIRequest] wraps, so a parse failure goes through the same catch
    block as a backend failure: the caller receives the quota error when the
    message of the parse error contains 429 or RESOURCE_EXHAUSTED, and the
    parse error itself, logged and otherwise untouched, in every other
    case. *)
Theorem C6_parse_failure_is_classified {P : Platform}
  (t : Task) (response : Response) (e : JsError) :
  generateContent (task_request t) = Normal response ->
  final_parse_failure t response e ->
  (exists calls,
     run_task t = bind (calls, Normal tt) (fun _ => on_request_error e))
  /\ outcome (run_task t) = Throw (classified e)
  /\ (quota_signal (message_or_empty e) ->
      outcome (run_task t) = Throw (new_Error "API_QUOTA_EXCEEDED"))
  /\ (~ quota_signal (message_or_empty e) ->
      outcome (run_task t) = Throw e
      /\ In (EvError "GenAI Request Error:" e) (trace (run_task t))).
Proof.
  intros Hgen Hfail.
  assert (E : exists calls,
             run_task t = ((calls ++ error_log e)%list, Throw (classified e))).
  { unfold final_parse_failure in Hfail. cbv zeta in Hfail.
    destruct (JSON_parse (text_or_braces response)) as [v|e1] eqn:Hp.
    - destruct (is_research t); [now destruct Hfail | discriminate].
    - pose proof (run_after_failed_parse t response e1 Hgen Hp) as E.
      cbv zeta in E. rewrite E. clear E.
      destruct (is_research t).
      + destruct Hfail as [_ ->]. now eexists.
      + injection Hfail as ->. now eexists. }
  destruct E as [calls E]. rewrite E.
  unfold outcome, trace. cbn [fst snd]. split; [| split; [reflexivity | split]].
  - exists calls. now rewrite on_request_error_run.
  - intros Hq. now rewrite classified_quota.
  - intros Hq. rewrite classified_other by assumption. split; [reflexivity |].
    apply in_or_app. right. unfold error_log.
    destruct (is_quota_message (message_or_empty e)) eqn:Eq; [| now left].
    elim Hq. now apply is_quota_message_spec.
Qed.

Lemma C6_parse_failure_witness :
  @generateContent (answering (Normal (mkResponse (Some comma_at_429) None)))
    (task_request english_report)
  = Normal (mkResponse (Some comma_at_429) None)
  /\ @final_parse_failure
       (answering (Normal (mkResponse (Some comma_at_429) None)))
       english_report (mkResponse (Some comma_at_429) None) position_429_error
  /\ outcome (@run_task
                (answering (Normal (mkResponse (Some comma_at_429) None)))
                english_report)
     = Throw (classified position_429_error).
Proof.
  assert (H : @final_parse_failure
                (answering (Normal (mkResponse (Some comma_at_429) None)))
                english_report (mkResponse (Some comma_at_429) None)
                position_429_error)
    by (vm_compute; split; reflexivity).
  split; [reflexivity | split; [exact H |]].
  exact (proj1 (proj2 (@C6_parse_failure_is_classified
                         (answering (Normal (mkResponse (Some comma_at_429) None)))
                         english_report (mkResponse (Some comma_at_429) None)
                         position_429_error eq_refl H))).
Defined.

(** ** C7: grounding extraction *)

(** C7. Extraction returns the complete chunks of the first candidate's chunk
    list, each as its title and URI, in the order of the list, duplicates
    included; a response without a chunk list gives the empty list; a chunk
    without a title is dropped. *)
Theorem C7_grounding_filter_in_order :
  (forall response : Response,
     extractSources response =
     match first_groundingChunks response with
     | Some chunks => kept_sources chunks
     | None => []
     end)
  /\ (forall body chunks,
        extractSources (grounded_response body chunks) = kept_sources chunks)
  /\ (forall a b, kept_sources (a ++ b) = (kept_sources a ++ kept_sources b)%list)
  /\ (forall body, extractSources (mkResponse body None) = [])
  /\ extractSources
       (grounded_response None
          [web_chunk (Some "https://a.example") (Some "A");
           web_chunk (Some "https://b.example") None])
     = [mkSource "A" "https://a.example"]
  /\ extractSources
       (grounded_response None
          [web_chunk (Some "https://b.example") (Some "B");
           web_chunk (Some "https://a.example") (Some "A");
           web_chunk (Some "https://b.example") (Some "B")])
     = [mkSource "B" "https://b.example"; mkSource "A" "https://a.example";
        mkSource "B" "https://b.example"].
Proof.
  split; [exact extractSources_spec |].
  split; [intros; now rewrite extractSources_spec |].
  split; [| repeat split; reflexivity].
  intros a b. unfold kept_sources. now rewrite filter_app, map_app.
Qed.

(** ** C8: the research request *)

(** C8. For every prompt, section and language the research request is built
    (the first thing the operation does is to send it), it enables the search
    tool, sets a reasoning budget of 4000, requires each of its fourteen
    top-level fields, and its instruction text bounds the explanation field
    and every string by 3000 characters. *)
Theorem C8_research_request_shape {P : Platform}
  (prompt : string) (section : SectionType) (languageName : string) :
  let req := researchRequest prompt section languageName in
  (exists rest,
     trace (getEnvironmentalSolution prompt section languageName)
     = EvGenerate req :: rest)
  /\ tools (config req) = [googleSearch]
  /\ thinkingBudget (config req) = Some 4000
  /\ (exists properties required,
        responseSchema (config req) = TObject properties required
        /\ required = map fst properties
        /\ length required = 14
        /\ NoDup required)
  /\ contains (contents req)
       "Explanation: Provide a deep technical analysis. IMPORTANT: Keep this field under 3000 characters"
  /\ contains (contents req) "Do not let strings exceed 3000 characters."
  /\ contains (contents req) prompt
  /\ contains (contents req) languageName.
Proof.
  intros req. split; [| split; [reflexivity | split; [reflexivity | split]]].
  - pose proof (getEnvironmentalSolution_run prompt section languageName) as E.
    cbv zeta in E. fold req in E. rewrite E.
    platform_cases; unfold trace, repair_attempt; cbn [fst app]; now eexists.
  - exists researchProperties, researchRequired. repeat split.
    repeat (constructor; [simpl; intuition discriminate |]). constructor.
  - unfold req, researchRequest, contents, researchContents.
    repeat split.
    + do 10 apply contains_append_l. now apply contains_literal.
    + do 10 apply contains_append_l. now apply contains_literal.
    + do 2 apply contains_append_l. apply contains_head.
    + do 9 apply contains_append_l. apply contains_head.
Qed.

(** ** C9: empty text *)

(** C9, as stated, fails in its last clause: with no text but a complete
    grounding chunk, the research report comes back as an object whose only
    property is a [sources] array of one element, not an empty one. *)
Lemma C9_counterexample_sources_not_empty :
  text silent_cited_response = None
  /\ outcome (@run_task (answering (Normal silent_cited_response))
                english_report)
     = Normal (JObject
                 [("sources",
                   JArray [JObject [("title", JString "A");
                                    ("uri", JString "https://a.example")]])]).
Proof. repeat split; vm_compute; reflexivity. Qed.

(** C9, amended. When the backend call succeeds with a missing or empty
    text, every task operation parses the two characters of an empty object
    instead, calls no repair, and succeeds: the plan and the status come back
    as the empty object, the research report as an object whose only property
    is the [sources] array of the extracted grounding sources, which is empty
    when the response carries no chunk list; none of the fields that the
    schema requires is present. *)
Theorem C9_empty_text_becomes_empty_object {P : Platform}
  (t : Task) (response : Response) :
  generateContent (task_request t) = Normal response ->
  text response = None \/ text response = Some EmptyString ->
  JSON_parse "{}" = Normal (JObject []) ->
  let result :=
    if is_research t
    then JObject [("sources",
                   JArray (map source_value (extractSources response)))]
    else JObject [] in
  outcome (run_task t) = Normal result
  /\ parses (trace (run_task t)) = ["{}"]
  /\ repairs (trace (run_task t)) = 0
  /\ (forall k, In k (required_fields t) -> field result k = None)
  /\ (first_groundingChunks response = None ->
      is_research t = true ->
      result = JObject [("sources", JArray [])]).
Proof.
  intros Hgen Htext Hparse result.
  assert (Hbraces : text_or_braces response = "{}").
  { unfold text_or_braces. now destruct Htext as [-> | ->]. }
  rewrite <- Hbraces in Hparse.
  rewrite (run_after_parse t response _ Hgen Hparse), Hbraces.
  assert (Hres : (if is_research t
                  then with_sources (JObject []) (extractSources response)
                  else JObject []) = result)
    by (unfold result; now destruct (is_research t)).
  rewrite Hres.
  split; [reflexivity | split; [reflexivity | split; [reflexivity | split]]].
  - intros k Hk. unfold result.
    destruct t; simpl in Hk |- *; try reflexivity.
    repeat (destruct Hk as [<- | Hk]; [reflexivity |]). contradiction.
  - intros Hc Hr. unfold result. rewrite Hr.
    now rewrite extractSources_spec, Hc.
Qed.

Lemma C9_empty_text_witness :
  @generateContent (answering (Normal (mkResponse (Some EmptyString) None)))
    (task_request english_status)
  = Normal (mkResponse (Some EmptyString) None)
  /\ JsonParser.parse "{}" = Normal (JObject [])
  /\ outcome (@run_task (answering (Normal (mkResponse (Some EmptyString) None)))
                english_status)
     = Normal (JObject []).
Proof.
  split; [reflexivity | split; [reflexivity |]].
  exact (proj1 (@C9_empty_text_becomes_empty_object
                  (answering (Normal (mkResponse (Some EmptyString) None)))
                  english_status (mkResponse (Some EmptyString) None)
                  eq_refl (or_intror eq_refl) eq_refl)).
Defined.

(** ** C10: what repair may change *)

(** C10. The repaired string is the trimmed input followed by at most one
    double quote, one closing bracket and one closing brace, in that order:
    the trimmed input is a prefix of it, the input itself is the trimmed input
    between two runs of whitespace, and at most three characters are added. *)
Theorem C10_repair_only_appends (s : string) :
  exists (q b c : bool) (l r : string),
    tryRepairJson s = trim s ++ appended q dq ++ appended b "]" ++ appended c "}"
    /\ s = l ++ trim s ++ r /\ all_ws l = true /\ all_ws r = true
    /\ prefix (trim s) (tryRepairJson s) = true
    /\ String.length (tryRepairJson s) <= String.length (trim s) + 3.
Proof.
  destruct (trim_split s) as (l & r & Hs & Hl & Hr).
  assert (Hshape : exists q b c : bool,
             tryRepairJson s
             = trim s ++ appended q dq ++ appended b "]" ++ appended c "}").
  { pose proof (tryRepairJson_shape s) as H. cbv zeta in H.
    destruct (endsWith (trim s) "}").
    - exists false, false, false. simpl. now rewrite append_nil_r.
    - eexists _, _, _. exact H. }
  destruct Hshape as (q & b & c & E).
  exists q, b, c, l, r. repeat split; try assumption.
  - rewrite E. apply prefix_append.
  - rewrite E, !length_append.
    pose proof (appended_length q dquote).
    pose proof (appended_length b "]"%char).
    pose proof (appended_length c "}"%char).
    unfold dq. lia.
Qed.

(** * Further properties of the code *)

From Stdlib Require Import ZifyNat.

(** Linear arithmetic with division and remainder by constants. *)
Ltac euclid := zify; Z.to_euclidean_division_equations; lia.

(** ** The habit tracker *)

Module HabitFacts.
Import Habits.

(** X1. Toggling keeps the list in shape: as many habits, the same ids and
    names in the same order; a habit whose id differs is left as it is, so an
    id that no habit has changes nothing; every habit with the id is flipped,
    duplicates included. *)
Theorem toggleHabit_frame (id0 : string) (prev : list EcoHabit) :
  length (toggleHabit id0 prev) = length prev
  /\ map id (toggleHabit id0 prev) = map id prev
  /\ map name (toggleHabit id0 prev) = map name prev
  /\ (forall n h, nth_error prev n = Some h -> id h <> id0 ->
        nth_error (toggleHabit id0 prev) n = Some h)
  /\ ((forall h, In h prev -> id h <> id0) -> toggleHabit id0 prev = prev)
  /\ (forall n h, nth_error prev n = Some h -> id h = id0 ->
        exists h', nth_error (toggleHabit id0 prev) n = Some h'
                   /\ completed h' = negb (completed h)).
Proof.
  assert (Hid : forall h, id (toggle_one id0 h) = id h)
    by (intros h; unfold toggle_one; now destruct (String.eqb (id h) id0)).
  assert (Hname : forall h, name (toggle_one id0 h) = name h)
    by (intros h; unfold toggle_one; now destruct (String.eqb (id h) id0)).
  assert (Hother : forall h, id h <> id0 -> toggle_one id0 h = h).
  { intros h Hne. unfold toggle_one.
    destruct (String.eqb_spec (id h) id0); [contradiction | reflexivity]. }
  unfold toggleHabit. repeat split.
  - apply length_map.
  - rewrite map_map. now apply map_ext.
  - rewrite map_map. now apply map_ext.
  - intros n h Hn Hne. rewrite nth_error_map, Hn. simpl. now rewrite Hother.
  - intros Hall. rewrite <- (map_id prev) at 2. apply map_ext_in.
    intros h Hin. apply Hother. now apply Hall.
  - intros n h Hn He. rewrite nth_error_map, Hn. simpl. eexists. split; [reflexivity |].
    unfold toggle_one. rewrite He, String.eqb_refl. reflexivity.
Qed.

Lemma default_habits_sound : Forall sound default_habits.
Proof. repeat constructor; simpl; try lia; discriminate. Qed.

Lemma toggle_one_sound (id0 : string) (h : EcoHabit) :
  sound h -> sound (toggle_one id0 h).
Proof.
  intros [H0 H1]. unfold sound, toggle_one.
  destruct (String.eqb (id h) id0); [| now split].
  destruct (completed h); simpl; split; try lia; discriminate.
Qed.

(** X2. Soundness is an invariant: it holds for the default habits, and
    toggling any id in a sound list gives a sound list; the progress bar of a
    sound habit is between 0 and 100 percent wide. *)
Theorem toggleHabit_keeps_sound :
  Forall sound default_habits
  /\ (forall id0 prev, Forall sound prev -> Forall sound (toggleHabit id0 prev))
  /\ (forall h, sound h -> (0 <= progress_width h <= 100)%Z).
Proof.
  split; [exact default_habits_sound | split].
  - intros id0 prev H. unfold toggleHabit. rewrite Forall_map.
    apply Forall_impl with (2 := H). apply toggle_one_sound.
  - intros h [H0 _]. unfold progress_width. lia.
Qed.



End HabitFacts.


(** ** Base64 and the byte helpers *)

Module Base64Facts.
Import Base64.

(** Induction over a list three elements at a time. *)
Lemma list_ind3 {A : Type} (P : list A -> Prop) :
  P [] -> (forall a, P [a]) -> (forall a b, P [a; b]) ->
  (forall a b c l, P l -> P (a :: b :: c :: l)) ->
  forall l, P l.
Proof.
  intros H0 H1 H2 H3. fix IH 1.
  intros [|a [|b [|c l]]]; [exact H0 | apply H1 | apply H2 | apply H3, IH].
Qed.

Lemma digit_value_char (v : nat) :
  v < 64 -> digit_value (digit_char v) = Some v.
Proof.
  intros H. do 64 (destruct v as [|v]; [reflexivity |]). lia.
Qed.

Lemma digit_is_plain (c : ascii) (v : nat) :
  digit_value c = Some v ->
  isAsciiWhitespace c = false /\ Ascii.eqb c "=" = false.
Proof.
  destruct c as [[|] [|] [|] [|] [|] [|] [|] [|]]; intros H;
    first [ split; reflexivity | vm_compute in H; discriminate ].
Qed.

Lemma sextets_small (a b c : nat) :
  a < 256 -> b < 256 -> c < 256 ->
  a / 4 < 64 /\ (a mod 4) * 16 + b / 16 < 64
  /\ (b mod 16) * 4 + c / 64 < 64 /\ c mod 64 < 64
  /\ (a mod 4) * 16 < 64 /\ (b mod 16) * 4 < 64.
Proof.
  intros Ha Hb Hc.
  pose proof (Nat.mod_upper_bound a 4). pose proof (Nat.mod_upper_bound b 16).
  pose proof (Nat.mod_upper_bound c 64).
  pose proof (Nat.Div0.div_lt_upper_bound a 4 64).
  pose proof (Nat.Div0.div_lt_upper_bound b 16 16).
  pose proof (Nat.Div0.div_lt_upper_bound c 64 4).
  lia.
Qed.

Lemma quad_bytes (a b c : nat) :
  a < 256 -> b < 256 -> c < 256 ->
  let buffer := ((a / 4 * 64 + ((a mod 4) * 16 + b / 16)) * 64
                 + ((b mod 16) * 4 + c / 64)) * 64 + c mod 64 in
  buffer / 256 / 256 = a /\ (buffer / 256) mod 256 = b /\ buffer mod 256 = c.
Proof.
  intros Ha Hb Hc buffer.
  assert (E : buffer = a * (256 * 256) + b * 256 + c) by (subst buffer; euclid).
  rewrite E. clear E buffer.
  assert (E1 : (a * (256 * 256) + b * 256 + c) / 256 = a * 256 + b) by euclid.
  rewrite E1. repeat split; euclid.
Qed.

Lemma pair_bytes (a b : nat) :
  a < 256 -> b < 256 ->
  let buffer := (a / 4 * 64 + ((a mod 4) * 16 + b / 16)) * 64 + (b mod 16) * 4 in
  buffer / 4 / 256 = a /\ (buffer / 4) mod 256 = b.
Proof.
  intros Ha Hb buffer.
  assert (E : buffer = a * 1024 + b * 4) by (subst buffer; euclid).
  rewrite E. clear E buffer.
  assert (E1 : (a * 1024 + b * 4) / 4 = a * 256 + b) by euclid.
  rewrite E1. split; euclid.
Qed.

Lemma single_byte (a : nat) :
  a < 256 -> (a / 4 * 64 + (a mod 4) * 16) / 16 = a.
Proof.
  intros Ha.
  assert (E : a / 4 * 64 + (a mod 4) * 16 = a * 16) by euclid.
  rewrite E. euclid.
Qed.

(** [encode_units] is the digits followed by the padding. *)
Lemma encode_units_split (units : list nat) :
  encode_units units = encode_digits units ++ padding (length units).
Proof.
  induction units as [| a | a b | a b c rest IH] using list_ind3;
    try reflexivity.
  cbn [encode_units encode_digits String.append]. rewrite IH.
  replace (padding (length (a :: b :: c :: rest))) with (padding (length rest));
    [reflexivity |].
  unfold padding. cbn [length].
  replace (S (S (S (length rest)))) with (length rest + 1 * 3) by lia.
  now rewrite Nat.Div0.mod_add.
Qed.

(** Four characters for every three bytes, the last group rounded up. *)
Lemma encode_units_length (units : list nat) :
  String.length (encode_units units) = 4 * ((length units + 2) / 3).
Proof.
  induction units as [| a | a b | a b c rest IH] using list_ind3;
    try reflexivity.
  cbn [encode_units String.length length]. rewrite IH.
  replace (S (S (S (length rest))) + 2) with (length rest + 2 + 1 * 3) by lia.
  rewrite Nat.div_add by lia. lia.
Qed.

Lemma encode_digits_length (units : list nat) :
  String.length (encode_digits units) mod 4 <> 1.
Proof.
  induction units as [| a | a b | a b c rest IH] using list_ind3;
    try (cbn; lia).
  cbn [encode_digits String.length].
  replace (S (S (S (S (String.length (encode_digits rest))))))
    with (String.length (encode_digits rest) + 1 * 4) by lia.
  now rewrite Nat.Div0.mod_add.
Qed.

Lemma encode_digits_all_digits (units : list nat) :
  Forall (fun n => n < 256) units -> all_digits (encode_digits units) = true.
Proof.
  induction units as [| a | a b | a b c rest IH] using list_ind3; intros H.
  - reflexivity.
  - inversion_clear H as [| ? ? Ha _].
    destruct (sextets_small a 0 0 Ha) as (S1 & _ & _ & _ & S5 & _); try lia.
    cbn [encode_digits all_digits]. now rewrite !digit_value_char.
  - inversion_clear H as [| ? ? Ha H']. inversion_clear H' as [| ? ? Hb _].
    destruct (sextets_small a b 0 Ha Hb) as (S1 & S2 & _ & _ & _ & S6); try lia.
    cbn [encode_digits all_digits]. now rewrite !digit_value_char.
  - inversion_clear H as [| ? ? Ha H']. inversion_clear H' as [| ? ? Hb H''].
    inversion_clear H'' as [| ? ? Hc Hrest].
    destruct (sextets_small a b c Ha Hb Hc) as (S1 & S2 & S3 & S4 & _ & _).
    cbn [encode_digits all_digits]. rewrite !digit_value_char by assumption.
    now apply IH.
Qed.

(** The decoding loop undoes the digits. *)
Ltac decode_steps :=
  cbn [encode_digits decode_digits];
  repeat (rewrite ?digit_value_char by assumption;
          cbn [Nat.add Nat.mul Nat.eqb]).

Lemma decode_encode_digits (units : list nat) :
  Forall (fun n => n < 256) units ->
  forall output,
    decode_digits (encode_digits units) 0 0 output
    = Some (output ++ units_string units).
Proof.
  induction units as [| a | a b | a b c rest IH] using list_ind3;
    intros H output.
  - cbn. now rewrite append_nil_r.
  - inversion_clear H as [| ? ? Ha _].
    destruct (sextets_small a 0 0 Ha) as (S1 & _ & _ & _ & S5 & _); try lia.
    decode_steps. now rewrite single_byte.
  - inversion_clear H as [| ? ? Ha H']. inversion_clear H' as [| ? ? Hb _].
    destruct (sextets_small a b 0 Ha Hb) as (S1 & S2 & _ & _ & _ & S6); try lia.
    destruct (pair_bytes a b Ha Hb) as [P1 P2]. cbv zeta in P1, P2.
    decode_steps. now rewrite P1, P2.
  - inversion_clear H as [| ? ? Ha H']. inversion_clear H' as [| ? ? Hb H''].
    inversion_clear H'' as [| ? ? Hc Hrest].
    destruct (sextets_small a b c Ha Hb Hc) as (S1 & S2 & S3 & S4 & _ & _).
    destruct (quad_bytes a b c Ha Hb Hc) as (Q1 & Q2 & Q3). cbv zeta in Q1, Q2, Q3.
    decode_steps. rewrite Q1, Q2, Q3, (IH Hrest).
    unfold unit_string. cbn [units_string].
    now rewrite !append_assoc.
Qed.

Lemma all_digits_append (a b : string) :
  all_digits (a ++ b) = all_digits a && all_digits b.
Proof.
  induction a as [|c a IH]; cbn [all_digits String.append]; [reflexivity |].
  now destruct (digit_value c).
Qed.

Lemma all_digits_no_padding (d : string) :
  all_digits d = true -> endsWith d "=" = false.
Proof.
  intros H. destruct (endsWith d "=") eqn:E; [| reflexivity].
  apply endsWith_spec in E as [l ->].
  rewrite all_digits_append, andb_true_iff in H. now destruct H.
Qed.

Lemma remove_whitespace_append (a b : string) :
  remove_whitespace (a ++ b) = remove_whitespace a ++ remove_whitespace b.
Proof.
  induction a as [|c a IH]; cbn [remove_whitespace String.append];
    [reflexivity |].
  destruct (isAsciiWhitespace c); cbn [String.append]; now rewrite IH.
Qed.

Lemma remove_whitespace_digits (d : string) :
  all_digits d = true -> remove_whitespace d = d.
Proof.
  induction d as [|c d IH]; cbn [all_digits remove_whitespace];
    [reflexivity |].
  destruct (digit_value c) as [v|] eqn:E; [| discriminate].
  intros H. destruct (digit_is_plain c v E) as [-> _]. now rewrite IH.
Qed.

Lemma append_inj_last (a b : string) (c d : ascii) :
  a ++ String c EmptyString = b ++ String d EmptyString -> a = b /\ c = d.
Proof.
  revert b. induction a as [|x a IH]; intros [|y b] H; cbn in H.
  - now injection H.
  - injection H as _ H. now destruct b.
  - injection H as _ H. now destruct a.
  - injection H as -> H. destruct (IH _ H) as [-> ->]. now split.
Qed.

Lemma substring_prefix (d p : string) :
  substring 0 (String.length d) (d ++ p) = d.
Proof.
  induction d as [|c d IH]; cbn; [now destruct p | now rewrite IH].
Qed.

(** Stripping the padding of a well-formed text leaves its digits. *)
Lemma strip_padding_digits (d p : string) :
  all_digits d = true ->
  p = EmptyString \/ p = "=" \/ p = "==" ->
  String.length (d ++ p) mod 4 = 0 ->
  strip_padding (d ++ p) = d.
Proof.
  intros Hd Hp Hlen. unfold strip_padding. rewrite Hlen. cbn [Nat.eqb].
  destruct Hp as [-> | [-> | ->]].
  - rewrite append_nil_r.
    assert (E1 : endsWith d "=" = false) by now apply all_digits_no_padding.
    assert (E2 : endsWith d "==" = false).
    { destruct (endsWith d "==") eqn:E; [| reflexivity].
      apply endsWith_spec in E as [l ->].
      rewrite all_digits_append, andb_true_iff in Hd. now destruct Hd. }
    now rewrite E1, E2.
  - assert (E2 : endsWith (d ++ "=") "==" = false).
    { destruct (endsWith (d ++ "=") "==") eqn:E; [| reflexivity].
      apply endsWith_spec in E as [l E].
      change (l ++ "==") with (l ++ ("=" ++ "=")) in E.
      rewrite <- append_assoc in E. apply append_inj_last in E as [-> _].
      rewrite all_digits_append, andb_true_iff in Hd. now destruct Hd. }
    assert (E1 : endsWith (d ++ "=") "=" = true)
      by (apply endsWith_spec; now exists d).
    rewrite E2, E1. unfold drop_last. rewrite length_append. cbn [String.length].
    replace (String.length d + 1 - 1) with (String.length d) by lia.
    apply substring_prefix.
  - assert (E2 : endsWith (d ++ "==") "==" = true)
      by (apply endsWith_spec; now exists d).
    rewrite E2. unfold drop_last. rewrite length_append. cbn [String.length].
    replace (String.length d + 2 - 2) with (String.length d) by lia.
    apply substring_prefix.
Qed.

Lemma padding_cases (n : nat) :
  padding n = EmptyString \/ padding n = "=" \/ padding n = "==".
Proof.
  unfold padding. destruct (n mod 3) as [|[|[|k]]]; auto.
Qed.

(** [atob] undoes the encoding of a run of bytes. *)
Lemma forgiving_decode_encode (units : list nat) :
  Forall (fun n => n < 256) units ->
  forgiving_decode (encode_units units) = Some (units_string units).
Proof.
  intros H. unfold forgiving_decode.
  pose proof (encode_digits_all_digits units H) as Hd.
  assert (Hws : remove_whitespace (encode_units units) = encode_units units).
  { rewrite encode_units_split, remove_whitespace_append,
      remove_whitespace_digits by assumption.
    f_equal. now destruct (padding_cases (length units)) as [-> | [-> | ->]]. }
  cbv zeta. rewrite Hws.
  assert (Hstrip : strip_padding (encode_units units) = encode_digits units).
  { rewrite encode_units_split. apply strip_padding_digits;
      [assumption | apply padding_cases |].
    rewrite <- encode_units_split, encode_units_length.
    rewrite Nat.mul_comm. apply Nat.Div0.mod_mul. }
  rewrite Hstrip.
  destruct (String.length (encode_digits units) mod 4 =? 1) eqn:E.
  - apply Nat.eqb_eq in E. now apply encode_digits_length in E.
  - now rewrite decode_encode_digits.
Qed.

End Base64Facts.

Section ByteLoops.

Import Base64 Base64Facts.

Lemma units_string_length (units : list nat) :
  String.length (units_string units) = length units.
Proof. induction units as [|n u IH]; cbn; [reflexivity | now rewrite IH]. Qed.

Lemma units_string_get (prefix suffix : list nat) (n : nat) :
  String.get (length prefix) (units_string (prefix ++ n :: suffix)%list)
  = Some (ascii_of_nat n).
Proof. induction prefix as [|x p IH]; cbn; [reflexivity | exact IH]. Qed.

Lemma units_string_units (units : list nat) :
  Forall (fun n => n < 256) units ->
  map nat_of_ascii (list_ascii_of_string (units_string units)) = units.
Proof.
  induction 1 as [|n u Hn _ IH]; cbn; [reflexivity |].
  now rewrite IH, nat_ascii_embedding.
Qed.

Lemma to_nat_small (bytes : Uint8Array) :
  Forall (fun n => n < 256) (map Byte.to_nat bytes).
Proof.
  apply Forall_map, Forall_forall. intros b _.
  pose proof (Byte.to_nat_bounded b). lia.
Qed.

Lemma ToUint8_unit (b : Byte.byte) :
  ToUint8 (Some (nat_of_ascii (ascii_of_nat (Byte.to_nat b)))) = b.
Proof.
  pose proof (Byte.to_nat_bounded b) as Hb.
  rewrite nat_ascii_embedding by lia. unfold ToUint8.
  rewrite Nat.mod_small by lia. now rewrite Byte.of_to_nat.
Qed.

Lemma store_at (done rest : Uint8Array) (x b : Byte.byte) :
  store (done ++ x :: rest)%list (length done) b = (done ++ b :: rest)%list.
Proof. induction done as [|d done IH]; cbn; [reflexivity | now rewrite IH]. Qed.

(** The loop of [encode] appends the code unit of every byte. *)
Lemma encode_loop (bytes suffix : Uint8Array) :
  forall (prefix : Uint8Array) (acc : string),
    bytes = (prefix ++ suffix)%list ->
    for_range (length prefix) (length suffix)
      (fun i binary => binary ++ fromCharCode (element bytes i)) acc
    = acc ++ units_string (map Byte.to_nat suffix).
Proof.
  induction suffix as [|x suffix IH]; intros prefix acc E.
  - cbn. now rewrite append_nil_r.
  - cbn [length for_range map units_string].
    replace (S (length prefix)) with (length (prefix ++ [x])%list)
      by (rewrite length_app; cbn; lia).
    rewrite IH by (now rewrite <- app_assoc).
    unfold element. rewrite E, nth_error_app2, Nat.sub_diag by lia. cbn.
    now rewrite append_assoc.
Qed.

(** The loop of [decode] stores the code of every unit. *)
Lemma decode_loop (units suffix : list nat) :
  forall (prefix : list nat) (done : Uint8Array),
    units = (prefix ++ suffix)%list ->
    length done = length prefix ->
    for_range (length prefix) (length suffix)
      (fun i bytes => store bytes i (ToUint8 (charCodeAt (units_string units) i)))
      (done ++ new_Uint8Array (length suffix))%list
    = (done
       ++ map (fun n => ToUint8 (Some (nat_of_ascii (ascii_of_nat n)))) suffix)%list.
Proof.
  induction suffix as [|n suffix IH]; intros prefix done E Hlen.
  - reflexivity.
  - cbn [length for_range map new_Uint8Array repeat].
    assert (Hget : charCodeAt (units_string units) (length prefix)
                   = Some (nat_of_ascii (ascii_of_nat n))).
    { unfold charCodeAt. now rewrite E, units_string_get. }
    rewrite Hget. rewrite <- Hlen at 2. rewrite store_at.
    replace (S (length prefix)) with (length (prefix ++ [n])%list)
      by (rewrite length_app; cbn; lia).
    set (b := ToUint8 (Some (nat_of_ascii (ascii_of_nat n)))).
    change (done ++ b :: repeat Byte.x00 (length suffix))%list
      with (done ++ [b] ++ new_Uint8Array (length suffix))%list.
    rewrite app_assoc, IH;
      [now rewrite <- app_assoc | now rewrite <- app_assoc
      | rewrite !length_app; cbn; lia].
Qed.

End ByteLoops.

Lemma encode_units_of_bytes (bytes : Uint8Array) :
  encode bytes = Base64.encode_units (map Byte.to_nat bytes).
Proof.
  unfold encode, for_loop, Base64.btoa. cbv zeta.
  pose proof (encode_loop bytes bytes [] EmptyString eq_refl) as E.
  cbn [length String.append] in E. rewrite E.
  now rewrite units_string_units by apply to_nat_small.
Qed.

Lemma decode_after_encode (bytes : Uint8Array) :
  decode (encode bytes) = Normal bytes.
Proof.
  rewrite encode_units_of_bytes. unfold decode, for_loop, Base64.atob.
  rewrite Base64Facts.forgiving_decode_encode by apply to_nat_small.
  rewrite units_string_length.
  pose proof (decode_loop (map Byte.to_nat bytes) (map Byte.to_nat bytes) [] []
                eq_refl eq_refl) as E.
  cbn [length app] in E. cbv zeta. rewrite E.
  rewrite map_map. f_equal.
  rewrite <- (map_id bytes) at 2. apply map_ext. apply ToUint8_unit.
Qed.

(** X4. Encoding then decoding gives the bytes back: [decode] never throws
    on what [encode] produced, whatever the bytes and however many.  So
    [encode] loses nothing: different bytes have different texts. *)
Theorem decode_encode_roundtrip (bytes : Uint8Array) :
  decode (encode bytes) = Normal bytes
  /\ forall others, encode others = encode bytes -> others = bytes.
Proof.
  split; [apply decode_after_encode |].
  intros others H.
  pose proof (decode_after_encode others) as Ho.
  rewrite H, decode_after_encode in Ho. congruence.
Qed.

(** X5. The text that [encode] gives has four characters for every three
    bytes, the last group rounded up, and holds nothing but the sixty-four
    digits and at most two padding signs at its end. *)
Theorem encode_shape (bytes : Uint8Array) :
  String.length (encode bytes) = 4 * ((length bytes + 2) / 3)
  /\ exists digits pad,
       encode bytes = digits ++ pad
       /\ Base64.all_digits digits = true
       /\ (pad = EmptyString \/ pad = "=" \/ pad = "==")
       /\ (pad = EmptyString <-> length bytes mod 3 = 0).
Proof.
  rewrite encode_units_of_bytes. split.
  - now rewrite Base64Facts.encode_units_length, length_map.
  - exists (Base64.encode_digits (map Byte.to_nat bytes)),
      (Base64.padding (length bytes)).
    split; [| split; [| split]].
    + now rewrite Base64Facts.encode_units_split, length_map.
    + apply Base64Facts.encode_digits_all_digits, to_nat_small.
    + apply Base64Facts.padding_cases.
    + unfold Base64.padding.
      destruct (length bytes mod 3) as [|[|[|k]]] eqn:Em; split;
        try reflexivity; try discriminate.
      pose proof (Nat.mod_upper_bound (length bytes) 3). lia.
Qed.

(** ** Audio buffers *)

Section AudioFacts.

Context {MP : MediaPlatform}.

Lemma set_at_middle {A : Type} (done rest : list A) (x v : A) :
  set_at (done ++ x :: rest)%list (length done) v = (done ++ v :: rest)%list.
Proof. induction done as [|d done IH]; cbn; [reflexivity | now rewrite IH]. Qed.

Lemma set_at_outside {A : Type} (l : list A) (i : nat) (v : A) :
  length l <= i -> set_at l i v = l.
Proof.
  revert i. induction l as [|x l IH]; intros [|i] H; cbn in *;
    try reflexivity; try lia.
  rewrite IH by lia. reflexivity.
Qed.

(** A loop that stores [g i] at every index fills the array with [g]. *)
Lemma for_range_set_at {A : Type} (g : nat -> A) (rest : list A) :
  forall (done : list A),
    for_range (length done) (length rest)
      (fun i l => set_at l i (g i)) (done ++ rest)%list
    = (done ++ map g (seq (length done) (length rest)))%list.
Proof.
  induction rest as [|x rest IH]; intros done.
  - cbn. now rewrite !app_nil_r.
  - cbn [length for_range seq map]. rewrite set_at_middle.
    replace (done ++ g (length done) :: rest)%list
      with ((done ++ [g (length done)]) ++ rest)%list
      by now rewrite <- app_assoc.
    replace (S (length done)) with (length (done ++ [g (length done)])%list)
      by (rewrite length_app; cbn; lia).
    rewrite IH, <- app_assoc. reflexivity.
Qed.

Lemma for_loop_set_at {A : Type} (g : nat -> A) (l : list A) :
  for_loop (length l) (fun i l => set_at l i (g i)) l = map g (seq 0 (length l)).
Proof. exact (for_range_set_at g l []). Qed.

(** Every 16-bit integer lies between -32768 and 32767. *)
Lemma int16_range (lo hi : Byte.byte) :
  (-32768 <= int16 lo hi <= 32767)%Z.
Proof.
  unfold int16. pose proof (Byte.to_nat_bounded lo). pose proof (Byte.to_nat_bounded hi).
  cbv zeta.
  destruct (Z.ltb_spec (Z.of_nat (Byte.to_nat lo) + 256 * Z.of_nat (Byte.to_nat hi)) 32768);
    lia.
Qed.

Lemma int16_pairs_range (data : Uint8Array) :
  Forall (fun v => (-32768 <= v <= 32767)%Z) (int16_pairs data).
Proof.
  revert data. fix IH 1. intros [|lo [|hi rest]]; cbn [int16_pairs];
    [constructor | constructor |].
  constructor; [apply int16_range | apply IH].
Qed.

Lemma int16_pairs_length (data : Uint8Array) :
  length (int16_pairs data) = length data / 2.
Proof.
  revert data. fix IH 1. intros [|lo [|hi rest]]; cbn [int16_pairs length];
    [reflexivity | reflexivity |].
  rewrite IH.
  replace (S (S (length rest))) with (length rest + 1 * 2) by lia.
  rewrite Nat.div_add by lia. lia.
Qed.

Lemma for_range_ext {St : Type} (f g : nat -> St -> St) :
  (forall i s, f i s = g i s) ->
  forall n i s, for_range i n f s = for_range i n g s.
Proof.
  intros H n. induction n as [|n IH]; intros i s; cbn; [reflexivity |].
  now rewrite H, IH.
Qed.

(** The loop over the channels, started on silent rows: row [c] becomes
    [g c] at every frame. *)
Lemma channel_loop (n F : nat) (rate : N) (g : nat -> nat -> Sample)
  (zero : Sample) (rest : nat) :
  forall (done : list (list Sample)),
    for_range (length done) rest
      (fun c b =>
         with_channel b c (map (g c) (seq 0 (length (getChannelData b c)))))
      (mkAudioBuffer n F rate (done ++ repeat (repeat zero F) rest)%list)
    = mkAudioBuffer n F rate
        (done ++ map (fun c => map (g c) (seq 0 F)) (seq (length done) rest))%list.
Proof.
  induction rest as [|rest IH]; intros done.
  - reflexivity.
  - cbn [for_range repeat seq map].
    unfold with_channel at 2, getChannelData at 2.
    cbn [numberOfChannels frames sampleRate channelData].
    rewrite app_nth2, Nat.sub_diag by lia. cbn [nth].
    rewrite repeat_length, set_at_middle.
    replace (done ++ map (g (length done)) (seq 0 F) :: repeat (repeat zero F) rest)%list
      with ((done ++ [map (g (length done)) (seq 0 F)])
              ++ repeat (repeat zero F) rest)%list
      by now rewrite <- app_assoc.
    replace (S (length done))
      with (length (done ++ [map (g (length done)) (seq 0 F)])%list)
      by (rewrite length_app; cbn; lia).
    rewrite IH, <- app_assoc. reflexivity.
Qed.

(** [decodeAudioData] in closed form. *)
Lemma decodeAudioData_run (data : Uint8Array) (rate : N) (channels : nat) :
  decodeAudioData data rate channels =
  if Nat.even (length data) then
    if (channels =? 0) || (length (int16_pairs data) / channels =? 0)
       || (rate =? 0)%N || negb (supports channels rate)
    then Throw NotSupportedError
    else Normal
           (mkAudioBuffer channels (length (int16_pairs data) / channels) rate
              (map (fun c =>
                      map (fun i => scaled (int16_pairs data) (i * channels + c))
                        (seq 0 (length (int16_pairs data) / channels)))
                 (seq 0 channels)))
  else Throw RangeError_Int16Array.
Proof.
  unfold decodeAudioData, new_Int16Array, createBuffer.
  destruct (Nat.even (length data)); [| reflexivity].
  destruct ((channels =? 0) || (length (int16_pairs data) / channels =? 0)
            || (rate =? 0)%N || negb (supports channels rate)); [reflexivity |].
  f_equal. unfold for_loop.
  rewrite (for_range_ext _
             (fun c b =>
                with_channel b c
                  (map (fun i => scaled (int16_pairs data) (i * channels + c))
                     (seq 0 (length (getChannelData b c)))))).
  - exact (channel_loop channels _ rate
             (fun c i => scaled (int16_pairs data) (i * channels + c))
             (Some 0%Q) channels []).
  - intros c b. cbv zeta. f_equal.
    apply (for_loop_set_at
             (fun i => scaled (int16_pairs data) (i * channels + c))).
Qed.

Lemma nth_map_seq {A : Type} (f : nat -> A) (n c : nat) (d : A) :
  c < n -> nth c (map f (seq 0 n)) d = f c.
Proof.
  intros H. rewrite (nth_indep _ d (f 0)) by now rewrite length_map, length_seq.
  rewrite map_nth, seq_nth by assumption. reflexivity.
Qed.

Lemma sample_range (v : Z) :
  (-32768 <= v <= 32767)%Z -> (-1 <= v # 32768 /\ v # 32768 < 1)%Q.
Proof. intros H. unfold Qle, Qlt. cbn. lia. Qed.

End AudioFacts.

(** X6. What [decodeAudioData] puts in the buffer it returns: as many
    channels and the sample rate as asked, one frame for every [channels]
    16-bit integers of the data (two bytes each, low byte first, rounded
    down), and in channel [c] at frame [i] the integer at index
    [i * channels + c] divided by 32768, a number from -1 up to but not
    including 1. *)
Theorem decodeAudioData_deinterleaves {MP : MediaPlatform}
  (data : Uint8Array) (rate : N) (channels : nat) (buffer : AudioBuffer) :
  decodeAudioData data rate channels = Normal buffer ->
  numberOfChannels buffer = channels
  /\ sampleRate buffer = rate
  /\ frames buffer = length data / 2 / channels
  /\ length (channelData buffer) = channels
  /\ forall c, c < channels ->
       length (getChannelData buffer c) = frames buffer
       /\ forall i, i < frames buffer ->
            exists v,
              nth_error (int16_pairs data) (i * channels + c) = Some v
              /\ nth_error (getChannelData buffer c) i
                 = Some (Some (v # 32768)%Q)
              /\ (-1 <= v # 32768 /\ v # 32768 < 1)%Q.
Proof.
  rewrite decodeAudioData_run.
  destruct (Nat.even (length data)); [| discriminate].
  destruct ((channels =? 0) || (length (int16_pairs data) / channels =? 0)
            || (rate =? 0)%N || negb (supports channels rate)); [discriminate |].
  intros H. injection H as <-.
  cbn [numberOfChannels sampleRate frames channelData].
  rewrite length_map, length_seq, int16_pairs_length.
  repeat split; try reflexivity.
  - unfold getChannelData. cbn [channelData].
    rewrite nth_map_seq by assumption. now rewrite length_map, length_seq.
  - intros i Hi.
    assert (Hk : i * channels + c < length (int16_pairs data)).
    { rewrite int16_pairs_length.
      pose proof (Nat.Div0.mul_div_le (length data / 2) channels). nia. }
    destruct (nth_error (int16_pairs data) (i * channels + c)) as [v|] eqn:Ev.
    2: { apply nth_error_None in Ev. lia. }
    exists v. split; [reflexivity |]. split.
    + unfold getChannelData. cbn [channelData].
      rewrite nth_map_seq by assumption.
      rewrite nth_error_map, nth_error_seq.
      destruct (Nat.ltb_spec i (length data / 2 / channels)); [| lia].
      cbn [option_map Nat.add]. unfold scaled. now rewrite Ev.
    + apply sample_range.
      pose proof (int16_pairs_range data) as R.
      rewrite Forall_forall in R. apply R. eapply nth_error_In, Ev.
Qed.

Lemma decodeAudioData_deinterleaves_witness :
  @decodeAudioData (media_answering (inline_response EmptyString))
    two_frames 24000%N 1 = Normal two_frames_buffer
  /\ frames two_frames_buffer = length two_frames / 2 / 1.
Proof.
  split; [reflexivity |].
  apply (@decodeAudioData_deinterleaves
           (media_answering (inline_response EmptyString))
           two_frames 24000%N 1 two_frames_buffer).
  reflexivity.
Defined.

(** X7. When [decodeAudioData] fails, and with what.  Data of odd length
    fails with the [RangeError] of the 16-bit view.  Data of even length
    fails with [NotSupportedError] exactly when no buffer can be made: no
    channel, fewer 16-bit integers than channels (so not one whole frame,
    as for empty data), a zero rate, or a channel count or rate the
    implementation does not support.  In every other case a buffer comes
    back. *)
Theorem decodeAudioData_errors {MP : MediaPlatform}
  (data : Uint8Array) (rate : N) (channels : nat) :
  (forall e,
     decodeAudioData data rate channels = Throw e <->
     (Nat.even (length data) = false /\ e = RangeError_Int16Array)
     \/ (Nat.even (length data) = true /\ e = NotSupportedError
         /\ (channels = 0 \/ length data / 2 < channels \/ rate = 0%N
             \/ supports channels rate = false)))
  /\ ((exists buffer, decodeAudioData data rate channels = Normal buffer) <->
      Nat.even (length data) = true /\ 0 < channels <= length data / 2
      /\ rate <> 0%N /\ supports channels rate = true).
Proof.
  rewrite decodeAudioData_run, int16_pairs_length.
  assert (F : (length data / 2 / channels =? 0) = true
              <-> channels = 0 \/ length data / 2 < channels).
  { rewrite Nat.eqb_eq. destruct channels as [|k]; [cbn; tauto |].
    rewrite Nat.div_small_iff by lia. lia. }
  destruct (Nat.even (length data)).
  2: { split.
       - intros e. split.
         + intros [= <-]. now left.
         + intros [[_ ->] | [H _]]; [reflexivity | discriminate].
       - split; [intros [b H]; discriminate | intros [H _]; discriminate]. }
  destruct ((channels =? 0) || (length data / 2 / channels =? 0)
            || (rate =? 0)%N || negb (supports channels rate)) eqn:E.
  - rewrite !orb_true_iff, negb_true_iff, F, Nat.eqb_eq, N.eqb_eq in E.
    split.
    + intros e. split.
      * intros [= <-]. right. repeat split. tauto.
      * intros [[H _] | [_ [-> _]]]; [discriminate | reflexivity].
    + split; [intros [b H]; discriminate |].
      intros [_ [Hc [Hr Hs]]]. exfalso.
      destruct E as [[[E | [E | E]] | E] | E]; try lia; congruence.
  - rewrite !orb_false_iff, negb_false_iff in E.
    destruct E as [[[E1 E2] E3] E4].
    apply Nat.eqb_neq in E1. apply N.eqb_neq in E3.
    assert (E2' : ~ (channels = 0 \/ length data / 2 < channels)).
    { rewrite <- F. now rewrite E2. }
    split.
    + intros e. split; [discriminate |].
      intros [[H _] | [_ [_ H]]]; [discriminate |].
      exfalso. destruct H as [H | [H | [H | H]]]; try tauto; congruence.
    + split; [| intros _; eexists; reflexivity].
      intros _. repeat split; try assumption; lia.
Qed.

Lemma decodeAudioData_errors_witness :
  @decodeAudioData (media_answering (inline_response EmptyString))
    [Byte.x01; Byte.x00; Byte.xff] 24000%N 1 = Throw RangeError_Int16Array.
Proof.
  apply (proj1 (@decodeAudioData_errors
                  (media_answering (inline_response EmptyString))
                  [Byte.x01; Byte.x00; Byte.xff] 24000%N 1)).
  left. split; reflexivity.
Defined.

(** ** Speech and images *)

Section MediaFacts.

Context {MP : MediaPlatform}.

Lemma synthesis_failed_run (T : Type) :
  @on_request_error T synthesis_failed
  = ([EvError "GenAI Request Error:" synthesis_failed], Throw synthesis_failed).
Proof. reflexivity. Qed.

(** One channel: the frames are the 16-bit integers in their order. *)
Lemma mono_samples (d : list Z) :
  map (fun i => scaled d (i * 1 + 0)) (seq 0 (length d / 1))
  = map (fun v => Some (v # 32768)%Q) d.
Proof.
  rewrite Nat.div_1_r. apply nth_error_ext. intros n.
  rewrite !nth_error_map, nth_error_seq.
  destruct (Nat.ltb_spec n (length d)) as [H | H]; cbn [option_map Nat.add].
  - unfold scaled. replace (n * 1 + 0) with n by lia.
    destruct (nth_error d n) eqn:E; [reflexivity |].
    apply nth_error_None in E. lia.
  - apply nth_error_None in H. now rewrite H.
Qed.

Lemma encode_nonempty (bytes : Uint8Array) :
  bytes <> [] -> exists c rest, encode bytes = String c rest.
Proof.
  intros H. rewrite encode_units_of_bytes.
  destruct bytes as [|a [|b [|c bytes]]]; [congruence | | |];
    cbn [map Base64.encode_units]; eexists; eexists; reflexivity.
Qed.

Lemma find_first_inline (before after : list Media.Part) (p : Media.Part)
  (blob : Media.Blob) :
  Forall (fun q => Media.inlineData q = None) before ->
  Media.inlineData p = Some blob ->
  find (fun p => match Media.inlineData p with Some _ => true | None => false end)
    (before ++ p :: after)%list = Some p.
Proof.
  intros Hb Hp. induction Hb as [|q before Hq Hb IH]; cbn [app find].
  - now rewrite Hp.
  - now rewrite Hq.
Qed.

Lemma find_no_inline (ps : list Media.Part) :
  Forall (fun q => Media.inlineData q = None) ps ->
  find (fun p => match Media.inlineData p with Some _ => true | None => false end)
    ps = None.
Proof.
  intros H. induction H as [|q ps Hq H IH]; cbn [find]; [reflexivity |].
  now rewrite Hq.
Qed.

Lemma image_of_found (response : Media.Response) (ct : Media.Content)
  (before after : list Media.Part) (p : Media.Part) (blob : Media.Blob) :
  first_content response = Some ct ->
  Media.parts ct = Some (before ++ p :: after)%list ->
  Forall (fun q => Media.inlineData q = None) before ->
  Media.inlineData p = Some blob ->
  image_of (Normal response)
  = ([], Normal ("data:image/png;base64," ++ blob_text blob)).
Proof.
  intros Hc Hp Hb Hi.
  unfold image_of, safeGenAIRequest, try_catch, bind, lift, ret,
    find_inline_part, first_content in *.
  destruct (Media.candidates response) as [[|c cs]|]; try discriminate.
  rewrite Hc, Hp, (find_first_inline before after p blob Hb Hi).
  unfold data_uri, blob_text. now rewrite Hi.
Qed.

Lemma image_of_absent (response : Media.Response) :
  match first_content response with
  | None => True
  | Some ct =>
      exists ps, Media.parts ct = Some ps
                 /\ Forall (fun q => Media.inlineData q = None) ps
  end ->
  image_of (Normal response) = ([], Normal EmptyString).
Proof.
  unfold image_of, safeGenAIRequest, try_catch, bind, lift, ret,
    find_inline_part, first_content.
  destruct (Media.candidates response) as [[|c cs]|]; try reflexivity.
  destruct (Media.content c) as [ct|]; [| reflexivity].
  intros [ps [-> H]]. now rewrite (find_no_inline ps H).
Qed.

Lemma image_of_no_parts (response : Media.Response) (ct : Media.Content) :
  first_content response = Some ct -> Media.parts ct = None ->
  image_of (Normal response)
  = ([EvError "GenAI Request Error:" TypeError_find], Throw TypeError_find).
Proof.
  intros Hc Hp.
  unfold image_of, safeGenAIRequest, try_catch, bind, lift, ret,
    find_inline_part, first_content in *.
  destruct (Media.candidates response) as [[|c cs]|]; try discriminate.
  now rewrite Hc, Hp.
Qed.

Lemma image_of_failure (e : JsError) :
  image_of (Throw e) = (error_log e, Throw (classified e)).
Proof.
  unfold image_of. now rewrite (safeGenAIRequest_throw _ _ [] e).
Qed.

Lemma generateVisualIllustration_image_of (visualPrompt : string) :
  generateVisualIllustration visualPrompt
  = image_of (generateMedia (illustrationRequest visualPrompt)).
Proof.
  unfold generateVisualIllustration, illustrate, image_of, safeGenAIRequest,
    try_catch, bind, lift, ret.
  destruct (generateMedia (illustrationRequest visualPrompt)) as [r | e];
    [destruct (find_inline_part r) |]; cbn;
    try destruct (on_request_error _); reflexivity.
Qed.

Lemma generateProImage_image_of (prompt : string) (size : Media.ImageSize) :
  generateProImage prompt size
  = image_of (generateMedia (proImageRequest prompt size)).
Proof. reflexivity. Qed.

Lemma generateSpeech_failure (text : string) (e : JsError) :
  generateMedia (speechRequest text) = Throw e ->
  generateSpeech text = (error_log e, Throw (classified e)).
Proof.
  intros H. unfold generateSpeech.
  rewrite (safeGenAIRequest_throw _ _ [] e); [reflexivity |].
  unfold bind, lift. now rewrite H.
Qed.

End MediaFacts.

(** X8. Speech without audio.  When the backend answers but the first part
    of the first candidate holds no inline data, or empty data, or any step
    on the way to it is missing, [generateSpeech] fails with
    [Error("Audio synthesis failed")]: the error is logged once and rethrown
    as it is, not as a quota error. *)
Theorem generateSpeech_without_audio {MP : MediaPlatform}
  (text : string) (response : Media.Response) :
  generateMedia (speechRequest text) = Normal response ->
  nonempty (first_inline_data response) = false ->
  generateSpeech text
  = ([EvError "GenAI Request Error:" synthesis_failed], Throw synthesis_failed).
Proof.
  intros Hr Hn. unfold generateSpeech, safeGenAIRequest, try_catch, bind, lift.
  rewrite Hr.
  destruct (first_inline_data response) as [[|c rest]|]; try discriminate;
    reflexivity.
Qed.

Lemma generateSpeech_without_audio_witness :
  @generateSpeech
    (media_answering (parts_response (Some [text_part "hello"; image_part "AAAA"])))
    "hello"
  = ([EvError "GenAI Request Error:" synthesis_failed], Throw synthesis_failed).
Proof.
  apply (@generateSpeech_without_audio
           (media_answering
              (parts_response (Some [text_part "hello"; image_part "AAAA"])))
           "hello"
           (parts_response (Some [text_part "hello"; image_part "AAAA"])));
    reflexivity.
Defined.

(** X9. Speech from encoded audio.  When the first part carries the text
    that [encode] gives for a non-empty even number of bytes, and the
    platform makes a context and a one-channel buffer at 24000 Hz,
    [generateSpeech] returns, without logging anything, a buffer of one
    channel at 24000 Hz with one frame for every two bytes: the 16-bit
    integers of the bytes, each divided by 32768. *)
Theorem generateSpeech_of_encoded {MP : MediaPlatform}
  (text : string) (response : Media.Response) (bytes : Uint8Array) :
  generateMedia (speechRequest text) = Normal response ->
  first_inline_data response = Some (encode bytes) ->
  newAudioContext 24000%N = Normal tt ->
  supports 1 24000%N = true ->
  Nat.even (length bytes) = true ->
  bytes <> [] ->
  generateSpeech text
  = ([], Normal (mkAudioBuffer 1 (length bytes / 2) 24000%N
                   [map (fun v => Some (v # 32768)%Q) (int16_pairs bytes)])).
Proof.
  intros Hr Hd Hctx Hs He Hne.
  unfold generateSpeech, safeGenAIRequest, try_catch, bind, lift.
  rewrite Hr, Hd.
  destruct (encode_nonempty bytes Hne) as [c [rest E]].
  rewrite E, Hctx, <- E, decode_after_encode.
  cbn [app]. rewrite decodeAudioData_run, He, Hs.
  rewrite int16_pairs_length.
  assert (Hlen : length bytes / 2 <> 0).
  { destruct bytes as [|a [|b bytes]]; [congruence | discriminate |].
    cbn [length].
    replace (S (S (length bytes))) with (length bytes + 1 * 2) by lia.
    rewrite Nat.div_add by lia. lia. }
  rewrite Nat.div_1_r.
  apply Nat.eqb_neq in Hlen. rewrite Hlen.
  cbn [Nat.eqb N.eqb orb negb seq map app].
  pose proof (mono_samples (int16_pairs bytes)) as M.
  rewrite int16_pairs_length, Nat.div_1_r in M. rewrite M. reflexivity.
Qed.

Lemma generateSpeech_of_encoded_witness :
  @generateSpeech (media_answering (inline_response (encode two_frames))) "hello"
  = ([], Normal two_frames_buffer).
Proof.
  apply (@generateSpeech_of_encoded
           (media_answering (inline_response (encode two_frames)))
           "hello" (inline_response (encode two_frames)) two_frames);
    try reflexivity.
  discriminate.
Defined.

(** X10. Speech from audio of odd length.  When the first part carries the
    text that [encode] gives for an odd number of bytes, [generateSpeech]
    fails with the [RangeError] of the 16-bit view, logged once and
    rethrown as it is: no sample is dropped or padded. *)
Theorem generateSpeech_of_odd_audio {MP : MediaPlatform}
  (text : string) (response : Media.Response) (bytes : Uint8Array) :
  generateMedia (speechRequest text) = Normal response ->
  first_inline_data response = Some (encode bytes) ->
  newAudioContext 24000%N = Normal tt ->
  Nat.even (length bytes) = false ->
  generateSpeech text
  = ([EvError "GenAI Request Error:" RangeError_Int16Array],
     Throw RangeError_Int16Array).
Proof.
  intros Hr Hd Hctx He.
  unfold generateSpeech, safeGenAIRequest, try_catch, bind, lift.
  rewrite Hr, Hd.
  assert (Hne : bytes <> []) by (intros ->; discriminate).
  destruct (encode_nonempty bytes Hne) as [c [rest E]].
  rewrite E, Hctx, <- E, decode_after_encode.
  cbn [app]. rewrite decodeAudioData_run, He. reflexivity.
Qed.

Lemma generateSpeech_of_odd_audio_witness :
  @generateSpeech
    (media_answering (inline_response (encode [Byte.x01; Byte.x00; Byte.xff])))
    "hello"
  = ([EvError "GenAI Request Error:" RangeError_Int16Array],
     Throw RangeError_Int16Array).
Proof.
  apply (@generateSpeech_of_odd_audio
           (media_answering
              (inline_response (encode [Byte.x01; Byte.x00; Byte.xff])))
           "hello" (inline_response (encode [Byte.x01; Byte.x00; Byte.xff]))
           [Byte.x01; Byte.x00; Byte.xff]);
    reflexivity.
Defined.

(** X11. Where the image comes from.  Both image operations return the data
    URI of the first part that has inline data, whatever parts without
    inline data come before it and whatever comes after it, and log
    nothing; a blob without data is printed as [undefined]. *)
Theorem image_from_first_inline_part {MP : MediaPlatform}
  (response : Media.Response) (ct : Media.Content)
  (before after : list Media.Part) (p : Media.Part) (blob : Media.Blob) :
  first_content response = Some ct ->
  Media.parts ct = Some (before ++ p :: after)%list ->
  Forall (fun q => Media.inlineData q = None) before ->
  Media.inlineData p = Some blob ->
  (forall visualPrompt,
     generateMedia (illustrationRequest visualPrompt) = Normal response ->
     generateVisualIllustration visualPrompt
     = ([], Normal ("data:image/png;base64," ++ blob_text blob)))
  /\ (forall prompt size,
        generateMedia (proImageRequest prompt size) = Normal response ->
        generateProImage prompt size
        = ([], Normal ("data:image/png;base64," ++ blob_text blob))).
Proof.
  intros Hc Hp Hb Hi. split.
  - intros visualPrompt Hr.
    rewrite generateVisualIllustration_image_of, Hr.
    now apply (image_of_found response ct before after p blob).
  - intros prompt size Hr.
    rewrite generateProImage_image_of, Hr.
    now apply (image_of_found response ct before after p blob).
Qed.

Lemma image_from_first_inline_part_witness :
  @generateVisualIllustration (media_answering three_parts_response) "a river"
  = ([], Normal "data:image/png;base64,AAAA").
Proof.
  refine (proj1 (@image_from_first_inline_part
                   (media_answering three_parts_response) three_parts_response
                   (Media.mkContent
                      (Some [text_part "Here it is"; image_part "AAAA";
                             image_part "BBBB"]))
                   [text_part "Here it is"] [image_part "BBBB"]
                   (image_part "AAAA")
                   (Media.mkBlob (Some "AAAA") (Some "image/png"))
                   eq_refl eq_refl _ eq_refl) "a river" eq_refl).
  repeat constructor.
Defined.

(** X12. No image.  When the response has no candidate or its first
    candidate no content, or when no part of the content has inline data,
    both image operations return the empty string and log nothing: the
    missing image is not an error. *)
Theorem image_absent_is_empty {MP : MediaPlatform} (response : Media.Response) :
  match first_content response with
  | None => True
  | Some ct =>
      exists ps, Media.parts ct = Some ps
                 /\ Forall (fun q => Media.inlineData q = None) ps
  end ->
  (forall visualPrompt,
     generateMedia (illustrationRequest visualPrompt) = Normal response ->
     generateVisualIllustration visualPrompt = ([], Normal EmptyString))
  /\ (forall prompt size,
        generateMedia (proImageRequest prompt size) = Normal response ->
        generateProImage prompt size = ([], Normal EmptyString)).
Proof.
  intros H. split.
  - intros visualPrompt Hr.
    rewrite generateVisualIllustration_image_of, Hr.
    now apply image_of_absent.
  - intros prompt size Hr.
    rewrite generateProImage_image_of, Hr. now apply image_of_absent.
Qed.

Lemma image_absent_is_empty_witness :
  @generateProImage
    (media_answering (parts_response (Some [text_part "I cannot draw this"])))
    "a river" Media.Size2K
  = ([], Normal EmptyString).
Proof.
  refine (proj2 (@image_absent_is_empty
                   (media_answering
                      (parts_response (Some [text_part "I cannot draw this"])))
                   (parts_response (Some [text_part "I cannot draw this"])) _)
            "a river" Media.Size2K eq_refl).
  cbn. eexists. split; [reflexivity | repeat constructor].
Defined.

(** X13. A content without parts.  The image operations read [parts]
    without a guard: on a content that has no [parts] they fail with the
    [TypeError] of the read, logged once and rethrown as it is.
    [generateSpeech] guards the same step and fails with its own error. *)
Theorem content_without_parts {MP : MediaPlatform}
  (response : Media.Response) (ct : Media.Content) :
  first_content response = Some ct -> Media.parts ct = None ->
  (forall visualPrompt,
     generateMedia (illustrationRequest visualPrompt) = Normal response ->
     generateVisualIllustration visualPrompt
     = ([EvError "GenAI Request Error:" TypeError_find], Throw TypeError_find))
  /\ (forall prompt size,
        generateMedia (proImageRequest prompt size) = Normal response ->
        generateProImage prompt size
        = ([EvError "GenAI Request Error:" TypeError_find], Throw TypeError_find))
  /\ (forall text,
        generateMedia (speechRequest text) = Normal response ->
        generateSpeech text
        = ([EvError "GenAI Request Error:" synthesis_failed],
           Throw synthesis_failed)).
Proof.
  intros Hc Hp. repeat split.
  - intros visualPrompt Hr.
    rewrite generateVisualIllustration_image_of, Hr.
    now apply (image_of_no_parts response ct).
  - intros prompt size Hr.
    rewrite generateProImage_image_of, Hr.
    now apply (image_of_no_parts response ct).
  - intros text Hr.
    unfold generateSpeech, safeGenAIRequest, try_catch, bind, lift.
    rewrite Hr. unfold first_content in Hc. unfold first_inline_data.
    destruct (Media.candidates response) as [[|c cs]|]; try discriminate.
    now rewrite Hc, Hp.
Qed.

Lemma content_without_parts_witness :
  @generateVisualIllustration (media_answering (parts_response None)) "a river"
  = ([EvError "GenAI Request Error:" TypeError_find], Throw TypeError_find).
Proof.
  exact (proj1 (@content_without_parts
                  (media_answering (parts_response None))
                  (parts_response None) (Media.mkContent None) eq_refl eq_refl)
           "a river" eq_refl).
Defined.

(** X14. A failing backend.  When the backend call of a media operation
    throws, the operation makes no further step: it throws
    [Error("API_QUOTA_EXCEEDED")] and logs nothing when the message holds
    [429] or [RESOURCE_EXHAUSTED], and otherwise logs the error once and
    rethrows it as it is. *)
Theorem media_backend_failure {MP : MediaPlatform} (e : JsError) :
  (forall text,
     generateMedia (speechRequest text) = Throw e ->
     generateSpeech text = (error_log e, Throw (classified e)))
  /\ (forall visualPrompt,
        generateMedia (illustrationRequest visualPrompt) = Throw e ->
        generateVisualIllustration visualPrompt
        = (error_log e, Throw (classified e)))
  /\ (forall prompt size,
        generateMedia (proImageRequest prompt size) = Throw e ->
        generateProImage prompt size = (error_log e, Throw (classified e)))
  /\ (quota_signal (message_or_empty e) ->
      error_log e = [] /\ classified e = new_Error "API_QUOTA_EXCEEDED")
  /\ (~ quota_signal (message_or_empty e) ->
      error_log e = [EvError "GenAI Request Error:" e] /\ classified e = e).
Proof.
  repeat split.
  - intros text H. now apply generateSpeech_failure.
  - intros visualPrompt H.
    now rewrite generateVisualIllustration_image_of, H, image_of_failure.
  - intros prompt size H.
    now rewrite generateProImage_image_of, H, image_of_failure.
  - apply is_quota_message_spec in H. unfold error_log. now rewrite H.
  - now apply classified_quota.
  - unfold error_log.
    destruct (is_quota_message (message_or_empty e)) eqn:E; [| reflexivity].
    elim H. now apply is_quota_message_spec.
  - now apply classified_other.
Qed.

Lemma media_backend_failure_witness :
  @generateProImage (media_failing (new_Error "429 Too Many Requests"))
    "a river" Media.Size1K
  = ([], Throw (new_Error "API_QUOTA_EXCEEDED")).
Proof.
  exact (proj1 (proj2 (proj2 (@media_backend_failure
                                (media_failing (new_Error "429 Too Many Requests"))
                                (new_Error "429 Too Many Requests"))))
           "a river" Media.Size1K eq_refl).
Defined.

(** ** The application *)

Lemma blank_spec (s : string) : blank s = true <-> all_ws s = true.
Proof.
  unfold blank. split.
  - intros H. destruct (trim_split s) as (l & r & Hs & Hl & Hr).
    destruct (trim s); [| discriminate].
    rewrite Hs, !all_ws_append, Hl, Hr. reflexivity.
  - intros H.
    assert (T : trimStart s = EmptyString).
    { induction s as [|c s IH]; [reflexivity |]. cbn in *.
      apply andb_true_iff in H as [Hc Hs]. rewrite Hc. now apply IH. }
    unfold trim. now rewrite T.
Qed.

Lemma blank_false (s : string) : all_ws s = false -> blank s = false.
Proof.
  intros H. destruct (blank s) eqn:B; [| reflexivity].
  apply blank_spec in B. congruence.
Qed.

Module AppFacts.
Import App.

Section Search.

Context {P : Platform} {MP : MediaPlatform} {E : Engine}.

(** What [search_begin] leaves as it was. *)
Lemma search_begin_reads (s : State) :
  activeSection (search_begin s) = activeSection s
  /\ selectedLanguage (search_begin s) = selectedLanguage s.
Proof.
  unfold search_begin, stopLiveTranscription.
  destruct s as [v i l ls r so il a es sl h q re lr ar].
  destruct r, lr, ar; split; reflexivity.
Qed.

(** The trace of a search starts with the research request. *)
Lemma research_trace_head (prompt : string) (section : SectionType)
  (languageName : string) :
  exists rest,
    fst (getEnvironmentalSolution prompt section languageName)
    = EvGenerate (researchRequest prompt section languageName) :: rest.
Proof.
  rewrite getEnvironmentalSolution_run. cbv zeta.
  platform_cases; cbn [fst]; unfold repair_attempt; cbn [app];
    eexists; reflexivity.
Qed.

(** The state that [search_begin] makes. *)
Lemma search_begin_fields (s : State) :
  let b := search_begin s in
  view b = Research /\ loading b = true /\ recording b = false
  /\ solution b = None /\ illustrationUrl b = None
  /\ quotaError b = false /\ researchError b = None
  /\ input b = input s /\ ecoStatus b = ecoStatus s
  /\ hasApiKey b = hasApiKey s
  /\ (recording s = true ->
      liveSessionRef b = false /\ audioContextRef b = false)
  /\ (recording s = false ->
      liveSessionRef b = liveSessionRef s
      /\ audioContextRef b = audioContextRef s).
Proof.
  unfold search_begin, stopLiveTranscription.
  destruct s as [v i l ls r so il a es sl h q re lr ar].
  destruct r, lr, ar; cbn; repeat split; intros; congruence.
Qed.


Lemma is_quota_error_classified (e : JsError) :
  quota_signal (message_or_empty e) ->
  is_quota_error (classified e) = true.
Proof. intros H. now rewrite (classified_quota e H). Qed.

Lemma is_quota_error_other (e : JsError) :
  ~ quota_signal (message_or_empty e) ->
  err_message e <> Some "API_QUOTA_EXCEEDED" ->
  is_quota_error (classified e) = false.
Proof.
  intros H Hm. rewrite (classified_other e H). unfold is_quota_error.
  destruct (err_message e) as [m|]; [| reflexivity].
  destruct (String.eqb_spec m "API_QUOTA_EXCEEDED"); [congruence | reflexivity].
Qed.

End Search.

Ltac search_start Hq s :=
  unfold performGlobalSearch, search_try, search_catch;
  rewrite (blank_false _ Hq);
  cbn -[search_begin getEnvironmentalSolution illustrate];
  rewrite (proj1 (search_begin_reads s)), (proj2 (search_begin_reads s)).

(** X15. A blank query is ignored, any other is sent.  A query of nothing
    but white space leaves the state as it is and reaches no backend: a
    recording is not stopped and the earlier result stays.  Every other
    query starts with the research request for the query itself, in the
    active section and the selected language. *)
Theorem search_runs_unless_blank {P : Platform} {MP : MediaPlatform}
  {E : Engine} (query : string) (s : State) :
  (all_ws query = true -> performGlobalSearch query s = ([], s))
  /\ (all_ws query = false ->
      exists rest,
        fst (performGlobalSearch query s)
        = EvGenerate (researchRequest query (activeSection s)
                        (name (selectedLanguage s))) :: rest).
Proof.
  split; intros Hq.
  - unfold performGlobalSearch. apply blank_spec in Hq. now rewrite Hq.
  - search_start Hq s.
    destruct (research_trace_head query (activeSection s)
                (name (selectedLanguage s))) as [rest Hrest].
    destruct (getEnvironmentalSolution query (activeSection s)
                (name (selectedLanguage s))) as [tr1 [result | e1]];
      cbn [fst] in Hrest; subst tr1.
    + destruct (visualPrompt_of result) as [visualPrompt | e2].
      * destruct (illustrate (template_text visualPrompt)) as [tr2 [img | e3]];
          cbn; eexists; reflexivity.
      * cbn. eexists; reflexivity.
    + cbn. eexists; reflexivity.
Qed.

Lemma search_runs_unless_blank_witness :
  @performGlobalSearch (answering (Normal illustrated_response))
    (media_answering three_parts_response) string_engine "   " initial_app
  = ([], initial_app).
Proof.
  exact (proj1 (@search_runs_unless_blank
                  (answering (Normal illustrated_response))
                  (media_answering three_parts_response) string_engine
                  "   " initial_app) eq_refl).
Defined.

(** X16. Where a search ends.  After a search with a query that is not
    blank, whatever the backend did: the Research view is open, nothing is
    loading and the loading step is empty; no recording is on, and a
    recording that was on has had its session and its audio context
    released; the quota flag and the failure text are never both set, the
    failure text is the fixed one; an illustration is only kept with a
    result and without an error; and the input, the section, the language,
    the status and the key flag are as before. *)
Theorem search_settles {P : Platform} {MP : MediaPlatform} {E : Engine}
  (query : string) (s : State) :
  all_ws query = false ->
  let s' := snd (performGlobalSearch query s) in
  view s' = Research /\ loading s' = false /\ loadingStep s' = EmptyString
  /\ recording s' = false
  /\ (recording s = true ->
      liveSessionRef s' = false /\ audioContextRef s' = false)
  /\ (quotaError s' = true -> researchError s' = None)
  /\ (researchError s' = None \/ researchError s' = Some unresponsive)
  /\ (illustrationUrl s' <> None ->
      solution s' <> None /\ quotaError s' = false /\ researchError s' = None)
  /\ input s' = input s /\ activeSection s' = activeSection s
  /\ selectedLanguage s' = selectedLanguage s /\ ecoStatus s' = ecoStatus s
  /\ hasApiKey s' = hasApiKey s.
Proof.
  intros Hq. search_start Hq s.
  pose proof (search_begin_fields s) as F. cbv zeta in F.
  pose proof (search_begin_reads s) as [R1 R2].
  destruct F as (F1 & F2 & F3 & F4 & F5 & F6 & F7 & F8 & F9 & F10 & F11 & F12).
  destruct (getEnvironmentalSolution query (activeSection s)
              (name (selectedLanguage s))) as [tr1 [result | e1]];
    [ destruct (visualPrompt_of result) as [visualPrompt | e2];
      [ destruct (illustrate (template_text visualPrompt))
          as [tr2 [img | e3]]; [| destruct (is_quota_error e3)]
      | destruct (is_quota_error e2) ]
    | destruct (is_quota_error e1) ];
    cbn -[search_begin];
    rewrite ?F1, ?F3, ?F4, ?F5, ?F6, ?F7, ?F8, ?F9, ?F10, ?R1, ?R2;
    repeat split; intros; try tauto; try congruence; auto.
Qed.

Lemma search_settles_witness :
  loading
    (snd (@performGlobalSearch (answering (Normal illustrated_response))
            (media_answering three_parts_response) string_engine
            acid_query initial_app)) = false.
Proof.
  exact (proj1 (proj2 (@search_settles (answering (Normal illustrated_response))
                         (media_answering three_parts_response) string_engine
                         acid_query initial_app eq_refl))).
Defined.

Section SearchOutcomes.

Context {P : Platform} {MP : MediaPlatform} {E : Engine}.


Lemma error_log_quota (e : JsError) :
  quota_signal (message_or_empty e) -> error_log e = [].
Proof.
  intros H. apply is_quota_message_spec in H. unfold error_log. now rewrite H.
Qed.

Lemma error_log_other (e : JsError) :
  ~ quota_signal (message_or_empty e) ->
  error_log e = [EvError "GenAI Request Error:" e].
Proof.
  intros H. unfold error_log.
  destruct (is_quota_message (message_or_empty e)) eqn:Q; [| reflexivity].
  elim H. now apply is_quota_message_spec.
Qed.



End SearchOutcomes.

(** X17. A research request that fails.  When the backend call of a search
    throws, no result and no illustration are kept.  If the message holds
    [429] or [RESOURCE_EXHAUSTED], the quota flag is set and the failure
    panel stays away; the service logs nothing and the application logs the
    quota error.  Otherwise (the message not being the quota code itself)
    the failure panel shows its fixed text, not the message of the error,
    and the error is logged twice: by the service and by the application. *)
Theorem research_failure_shown {P : Platform} {MP : MediaPlatform}
  {E : Engine} (query : string) (s : State) (e : JsError) :
  all_ws query = false ->
  generateContent (researchRequest query (activeSection s)
                     (name (selectedLanguage s))) = Throw e ->
  let req := researchRequest query (activeSection s)
               (name (selectedLanguage s)) in
  let r := performGlobalSearch query s in
  solution (snd r) = None /\ illustrationUrl (snd r) = None
  /\ (quota_signal (message_or_empty e) ->
      fst r = [EvGenerate req; console_error_1 (new_Error "API_QUOTA_EXCEEDED")]
      /\ quotaError (snd r) = true /\ researchError (snd r) = None
      /\ shows_failure (snd r) = false)
  /\ (~ quota_signal (message_or_empty e) ->
      err_message e <> Some "API_QUOTA_EXCEEDED" ->
      fst r = [EvGenerate req; EvError "GenAI Request Error:" e;
               console_error_1 e]
      /\ quotaError (snd r) = false
      /\ researchError (snd r) = Some unresponsive
      /\ shows_failure (snd r) = true).
Proof.
  intros Hq Hg req r. subst r req. search_start Hq s.
  rewrite getEnvironmentalSolution_run. cbv zeta. rewrite Hg.
  pose proof (search_begin_fields s) as F. cbv zeta in F.
  destruct F as (F1 & F2 & F3 & F4 & F5 & F6 & F7 & _).
  split; [| split; [| split]].
  - destruct (is_quota_error (classified e)); cbn -[search_begin]; exact F4.
  - destruct (is_quota_error (classified e)); cbn -[search_begin]; exact F5.
  - intros Hs. rewrite (is_quota_error_classified e Hs), (error_log_quota e Hs),
      (classified_quota e Hs).
    unfold shows_failure. cbn -[search_begin]. rewrite F1, F7.
    repeat split; reflexivity.
  - intros Hs Hm. rewrite (is_quota_error_other e Hs Hm), (error_log_other e Hs),
      (classified_other e Hs).
    unfold shows_failure. cbn -[search_begin]. rewrite F1, F6.
    repeat split; reflexivity.
Qed.

Lemma research_failure_shown_witness :
  quotaError
    (snd (@performGlobalSearch
            (answering (Throw (new_Error "429 Too Many Requests")))
            (media_answering three_parts_response) string_engine
            acid_query initial_app)) = true.
Proof.
  refine (proj1 (proj2 (proj1 (proj2 (proj2
            (@research_failure_shown
               (answering (Throw (new_Error "429 Too Many Requests")))
               (media_answering three_parts_response) string_engine
               acid_query initial_app (new_Error "429 Too Many Requests")
               eq_refl eq_refl))) _))).
  left. exists EmptyString, " Too Many Requests". reflexivity.
Defined.





(** X20. The telemetry fetch.  It always asks for the status without
    coordinates, in the selected language, and touches nothing but the
    status and the quota flag.  A status that parses is stored as parsed
    and the quota flag is cleared.  When the backend call throws, the
    status stays what it was; the quota flag is set if the message holds
    [429] or [RESOURCE_EXHAUSTED] and cleared otherwise (the message not
    being the quota code itself), whatever it was before. *)
Theorem telemetry_outcomes {P : Platform} (s : State) :
  let req := statusRequest None None (name (selectedLanguage s)) in
  let r := fetchTelemetry s in
  (exists rest, fst r = EvGenerate req :: rest)
  /\ (view (snd r) = view s /\ input (snd r) = input s
      /\ loading (snd r) = loading s /\ loadingStep (snd r) = loadingStep s
      /\ recording (snd r) = recording s /\ solution (snd r) = solution s
      /\ illustrationUrl (snd r) = illustrationUrl s
      /\ activeSection (snd r) = activeSection s
      /\ selectedLanguage (snd r) = selectedLanguage s
      /\ hasApiKey (snd r) = hasApiKey s
      /\ researchError (snd r) = researchError s
      /\ liveSessionRef (snd r) = liveSessionRef s
      /\ audioContextRef (snd r) = audioContextRef s)
  /\ (forall response data,
        generateContent req = Normal response ->
        JSON_parse (text_or_braces response) = Normal data ->
        ecoStatus (snd r) = Some data /\ quotaError (snd r) = false)
  /\ (forall e,
        generateContent req = Throw e ->
        ecoStatus (snd r) = ecoStatus s
        /\ (quota_signal (message_or_empty e) -> quotaError (snd r) = true)
        /\ (~ quota_signal (message_or_empty e) ->
            err_message e <> Some "API_QUOTA_EXCEEDED" ->
            quotaError (snd r) = false
            /\ fst r = [EvGenerate req; EvError "GenAI Request Error:" e;
                        console_error_1 e])).
Proof.
  intros req r. subst r req. unfold fetchTelemetry, getEcoStatus.
  rewrite parse_once_run. cbv zeta.
  cbn [selectedLanguage setQuotaError].
  split; [| split; [| split]].
  - platform_cases; try destruct (is_quota_error _); cbn;
      eexists; reflexivity.
  - platform_cases; try destruct (is_quota_error _); cbn;
      repeat split; reflexivity.
  - intros response data Hg Hp. rewrite Hg, Hp. split; reflexivity.
  - intros e Hg. rewrite Hg. split; [| split].
    + destruct (is_quota_error (classified e)); reflexivity.
    + intros Hs. now rewrite (is_quota_error_classified e Hs).
    + intros Hs Hm.
      rewrite (is_quota_error_other e Hs Hm), (error_log_other e Hs),
        (classified_other e Hs).
      split; reflexivity.
Qed.

Lemma telemetry_outcomes_witness :
  ecoStatus (snd (@fetchTelemetry (answering (Normal status_response)) initial_app))
  = Some status_value.
Proof.
  exact (proj1 (proj1 (proj2 (proj2
           (@telemetry_outcomes (answering (Normal status_response)) initial_app)))
           status_response status_value eq_refl eq_refl)).
Defined.

Section SearchRequests.

Context {P : Platform} {MP : MediaPlatform} {E : Engine}.



End SearchRequests.

End AppFacts.

(** ** The forms *)

Module FormFacts.

(** X21. The guards of the image form.  With a prompt of nothing but white
    space the form does nothing at all; with any other prompt and no key it
    opens the key selector and does nothing else.  In both cases the state
    stays as it is and nothing is logged. *)
Theorem image_form_guards {MP : MediaPlatform} (hasApiKey : bool)
  (s : ImageTool.State) :
  (all_ws (ImageTool.prompt s) = true ->
   ImageTool.handleGenerate hasApiKey s = ([], s, false))
  /\ (all_ws (ImageTool.prompt s) = false ->
      ImageTool.handleGenerate false s = ([], s, true)).
Proof.
  unfold ImageTool.handleGenerate. split; intros H.
  - apply blank_spec in H. now rewrite H.
  - now rewrite (blank_false _ H).
Qed.

Lemma image_form_guards_witness :
  @ImageTool.handleGenerate (media_answering three_parts_response) false
    (ImageTool.mkState "a river" Media.Size1K false None None)
  = ([], ImageTool.mkState "a river" Media.Size1K false None None, true).
Proof.
  exact (proj2 (@image_form_guards (media_answering three_parts_response) false
                  (ImageTool.mkState "a river" Media.Size1K false None None))
           eq_refl).
Defined.

(** X22. What the image form keeps.  With a key and a prompt that is not
    blank, the form ends not loading, with its prompt and size as they
    were, and the key selector closed.  When the backend call throws, the
    earlier result stays and the error shown is the quota code, if the
    message holds [429] or [RESOURCE_EXHAUSTED], and otherwise the message
    of the error, or the fixed text when it has none.  When the backend
    answers without any inline data, the form keeps a result whose address
    is empty and shows no error. *)
Theorem image_form_outcomes {MP : MediaPlatform} (s : ImageTool.State) :
  all_ws (ImageTool.prompt s) = false ->
  let req := proImageRequest (ImageTool.prompt s) (ImageTool.size s) in
  let r := ImageTool.handleGenerate true s in
  let s' := snd (fst r) in
  ImageTool.loading s' = false
  /\ ImageTool.prompt s' = ImageTool.prompt s
  /\ ImageTool.size s' = ImageTool.size s
  /\ snd r = false
  /\ (forall e,
        generateMedia req = Throw e ->
        ImageTool.result s' = ImageTool.result s
        /\ (quota_signal (message_or_empty e) ->
            ImageTool.error s' = Some "API_QUOTA_EXCEEDED")
        /\ (~ quota_signal (message_or_empty e) ->
            ImageTool.error s' = Some (ImageTool.message_or_failed e)))
  /\ (forall response ps,
        generateMedia req = Normal response ->
        first_content response = Some (Media.mkContent (Some ps)) ->
        Forall (fun q => Media.inlineData q = None) ps ->
        ImageTool.result s'
        = Some (ImageTool.mkResult EmptyString (ImageTool.prompt s)
                  (ImageTool.size s))
        /\ ImageTool.error s' = None).
Proof.
  intros Hq req r s'. subst s' r req. unfold ImageTool.handleGenerate.
  rewrite (blank_false _ Hq). cbn [negb ImageTool.prompt ImageTool.size
    ImageTool.setLoading ImageTool.setError].
  rewrite generateProImage_image_of.
  repeat split.
  - destruct (image_of _) as [tr [url | err]]; reflexivity.
  - destruct (image_of _) as [tr [url | err]]; reflexivity.
  - destruct (image_of _) as [tr [url | err]]; reflexivity.
  - destruct (image_of _) as [tr [url | err]]; reflexivity.
  - rewrite H, image_of_failure. reflexivity.
  - intros Hs. rewrite H, image_of_failure, (classified_quota e Hs). reflexivity.
  - intros Hs. rewrite H, image_of_failure, (classified_other e Hs). reflexivity.
  - rewrite H, image_of_absent; [reflexivity |].
    rewrite H0. exists ps. split; [reflexivity | assumption].
  - rewrite H, image_of_absent; [reflexivity |].
    rewrite H0. exists ps. split; [reflexivity | assumption].
Qed.

Lemma image_form_outcomes_witness :
  ImageTool.error
    (snd (fst (@ImageTool.handleGenerate
                 (media_failing (new_Error "429 Too Many Requests")) true
                 (ImageTool.mkState "a river" Media.Size1K false None None))))
  = Some "API_QUOTA_EXCEEDED".
Proof.
  refine (proj1 (proj2 (proj1 (proj2 (proj2 (proj2 (proj2
            (@image_form_outcomes
               (media_failing (new_Error "429 Too Many Requests"))
               (ImageTool.mkState "a river" Media.Size1K false None None)
               eq_refl)))))
            (new_Error "429 Too Many Requests") eq_refl)) _).
  left. exists EmptyString, " Too Many Requests". reflexivity.
Defined.



(** X24. The planner on its own.  Without an [onSearch] and with a goal
    that is not blank, the planner asks for the plan of its goal and ends
    not loading, with its goal and its parent as they were.  A plan that
    parses is kept as parsed.  When the backend call throws, the plan stays
    what it was: the failure is logged and nothing of it reaches the
    state. *)
Theorem planner_alone {P : Platform} {Parent : Type} (language : string)
  (s : Planner.State) (parent : Parent) :
  all_ws (Planner.goal s) = false ->
  let req := planRequest (Planner.goal s) language in
  let r := Planner.handleGenerate language None s parent in
  let s' := snd (fst r) in
  (exists rest, fst (fst r) = EvGenerate req :: rest)
  /\ Planner.loading s' = false /\ Planner.goal s' = Planner.goal s
  /\ snd r = parent
  /\ (forall response data,
        generateContent req = Normal response ->
        JSON_parse (text_or_braces response) = Normal data ->
        Planner.plan s' = Some data /\ fst (fst r) = [EvGenerate req;
                                                      EvParse (text_or_braces response)])
  /\ (forall e,
        generateContent req = Throw e ->
        Planner.plan s' = Planner.plan s
        /\ fst (fst r)
           = (EvGenerate req :: error_log e ++ [console_error_1 (classified e)])%list).
Proof.
  intros Hq req r s'. subst s' r req. unfold Planner.handleGenerate.
  rewrite (blank_false _ Hq). unfold generateSustainabilityPlan.
  rewrite parse_once_run. cbv zeta. cbn [Planner.goal Planner.setLoading].
  split; [| split; [| split; [| split; [| split]]]].
  - platform_cases; cbn; eexists; reflexivity.
  - platform_cases; reflexivity.
  - platform_cases; reflexivity.
  - platform_cases; reflexivity.
  - intros response data Hg Hp. rewrite Hg, Hp. split; reflexivity.
  - intros e Hg. rewrite Hg. split; reflexivity.
Qed.

Lemma planner_alone_witness :
  Planner.plan
    (snd (fst (@Planner.handleGenerate
                 (answering (Throw (new_Error "429 Too Many Requests")))
                 unit "English" None
                 (Planner.mkState "zero waste" false None) tt)))
  = None.
Proof.
  exact (proj1 (proj2 (proj2 (proj2 (proj2 (proj2
           (@planner_alone
              (answering (Throw (new_Error "429 Too Many Requests")))
              unit "English" (Planner.mkState "zero waste" false None) tt
              eq_refl)))))
           (new_Error "429 Too Many Requests") eq_refl)).
Defined.

End FormFacts.

(** ** The recorder *)

Section RecorderFacts.

Lemma map_nth_seq {A B : Type} (f : A -> B) (l : list A) (d : A) :
  map (fun i => f (nth i l d)) (seq 0 (length l)) = map f l.
Proof.
  apply nth_error_ext. intros n.
  rewrite !nth_error_map, nth_error_seq.
  destruct (Nat.ltb_spec n (length l)) as [H | H]; cbn [option_map Nat.add].
  - destruct (nth_error l n) as [x|] eqn:E.
    + now rewrite (nth_error_nth l n d E).
    + apply nth_error_None in E. lia.
  - apply nth_error_None in H. now rewrite H.
Qed.

(** The loop of the recorder converts every sample in its place. *)
Lemma pcm_int16_map (inputData : list Sample) :
  pcm_int16 inputData = map (fun x => ToInt16 (times_32768 x)) inputData.
Proof.
  unfold pcm_int16. cbv zeta.
  pose proof (for_loop_set_at
                (fun i => ToInt16 (times_32768 (nth i inputData None)))
                (repeat 0%Z (length inputData))) as E.
  rewrite repeat_length in E. rewrite E.
  apply (map_nth_seq (fun x => ToInt16 (times_32768 x))).
Qed.

Lemma ToInt16_range (x : Sample) : (-32768 <= ToInt16 x <= 32767)%Z.
Proof.
  destruct x as [q|]; cbn [ToInt16]; [| lia]. cbv zeta.
  pose proof (Z.mod_pos_bound (truncate q) 65536 ltac:(lia)).
  destruct (Z.ltb_spec (truncate q mod 65536) 32768); lia.
Qed.

Lemma to_nat_ToUint8 (n : nat) : Byte.to_nat (ToUint8 (Some n)) = n mod 256.
Proof.
  unfold ToUint8.
  pose proof (Nat.mod_upper_bound n 256 ltac:(lia)) as Hb.
  destruct (Byte.of_nat (n mod 256)) as [b|] eqn:E.
  - now apply Byte.to_of_nat.
  - apply Byte.of_nat_None_iff in E. lia.
Qed.

(** The two bytes of a 16-bit integer read back as that integer. *)
Lemma int16_of_bytes (v : Z) :
  (-32768 <= v <= 32767)%Z ->
  match int16_bytes v with
  | [lo; hi] => int16 lo hi = v
  | _ => False
  end.
Proof.
  intros Hv. unfold int16_bytes, int16. cbv zeta.
  rewrite !to_nat_ToUint8.
  pose proof (Z.mod_pos_bound v 65536 ltac:(lia)) as Hu.
  set (u := (v mod 65536)%Z) in *.
  assert (Hlo : Z.of_nat (Z.to_nat (u mod 256) mod 256) = (u mod 256)%Z).
  { pose proof (Z.mod_pos_bound u 256 ltac:(lia)).
    rewrite Nat.mod_small by lia. lia. }
  assert (Hhi : Z.of_nat (Z.to_nat (u / 256) mod 256) = (u / 256)%Z).
  { assert (0 <= u / 256 < 256)%Z by (subst u; euclid).
    rewrite Nat.mod_small by lia. lia. }
  rewrite Hlo, Hhi.
  assert (Hsum : (u mod 256 + 256 * (u / 256) = u)%Z) by euclid.
  rewrite Hsum.
  destruct (Z.ltb_spec u 32768); subst u; euclid.
Qed.

Lemma int16_pairs_of_bytes (l : list Z) :
  Forall (fun v => (-32768 <= v <= 32767)%Z) l ->
  int16_pairs (Uint8Array_of_Int16Array l) = l
  /\ length (Uint8Array_of_Int16Array l) = 2 * length l.
Proof.
  intros H. induction H as [|v l Hv H [IH1 IH2]]; [split; reflexivity |].
  unfold Uint8Array_of_Int16Array in *. cbn [flat_map].
  pose proof (int16_of_bytes v Hv) as Hb.
  destruct (int16_bytes v) as [|lo [|hi [|x rest]]]; try contradiction.
  cbn [app int16_pairs length]. rewrite IH1, IH2, Hb. split; [reflexivity | lia].
Qed.

Lemma pcm_int16_range (inputData : list Sample) :
  Forall (fun v => (-32768 <= v <= 32767)%Z) (pcm_int16 inputData).
Proof.
  rewrite pcm_int16_map. apply Forall_map, Forall_forall.
  intros x _. apply ToInt16_range.
Qed.

End RecorderFacts.

(** X25. What the recorder sends can be read back.  The blob of the audio
    callback holds the text of two bytes for every sample of the input, and
    [decode] and [decodeAudioData] of the service, at one channel, read from
    that text one frame for every sample: the 16-bit integer that the
    recorder stored for it, divided by 32768. *)
Theorem recorder_round_trip {MP : MediaPlatform} (inputData : list Sample)
  (rate : N) :
  inputData <> [] -> rate <> 0%N -> supports 1 rate = true ->
  exists bytes,
    Media.data (pcmBlob inputData) = Some (encode bytes)
    /\ length bytes = 2 * length inputData
    /\ decode (encode bytes) = Normal bytes
    /\ decodeAudioData bytes rate 1
       = Normal (mkAudioBuffer 1 (length inputData) rate
                   [map (fun x => Some (ToInt16 (times_32768 x) # 32768)%Q)
                      inputData]).
Proof.
  intros Hne Hr Hs.
  exists (Uint8Array_of_Int16Array (pcm_int16 inputData)).
  destruct (int16_pairs_of_bytes (pcm_int16 inputData)
              (pcm_int16_range inputData)) as [Hp Hl].
  assert (Hlen : length (pcm_int16 inputData) = length inputData)
    by now rewrite pcm_int16_map, length_map.
  rewrite Hlen in Hl.
  split; [reflexivity |]. split; [exact Hl |].
  split; [apply decode_after_encode |].
  rewrite decodeAudioData_run, Hp, Hl, Hlen, Hs.
  replace (Nat.even (2 * length inputData)) with true
    by (symmetry; apply Nat.even_spec; now exists (length inputData)).
  rewrite Nat.div_1_r.
  assert (Hz : (length inputData =? 0) = false).
  { apply Nat.eqb_neq. destruct inputData; [congruence | discriminate]. }
  apply N.eqb_neq in Hr. rewrite Hz, Hr.
  cbn [Nat.eqb orb negb seq map].
  pose proof (mono_samples (pcm_int16 inputData)) as M.
  rewrite Hlen, Nat.div_1_r in M. rewrite M, pcm_int16_map, map_map.
  reflexivity.
Qed.

Lemma recorder_round_trip_witness :
  exists bytes,
    Media.data (pcmBlob [Some (1 # 2)%Q; Some (-1 # 4)%Q]) = Some (encode bytes)
    /\ length bytes = 2 * 2
    /\ decode (encode bytes) = Normal bytes
    /\ @decodeAudioData (media_answering (inline_response EmptyString))
         bytes 16000%N 1
       = Normal (mkAudioBuffer 1 2 16000%N
                   [map (fun x => Some (ToInt16 (times_32768 x) # 32768)%Q)
                      [Some (1 # 2)%Q; Some (-1 # 4)%Q]]).
Proof.
  apply (@recorder_round_trip (media_answering (inline_response EmptyString))
           [Some (1 # 2)%Q; Some (-1 # 4)%Q] 16000%N).
  - discriminate.
  - discriminate.
  - reflexivity.
Defined.

(** The integer part towards zero, between its two multiples. *)
Lemma quot_bounds (a b : Z) :
  (0 < b)%Z ->
  ((0 <= a)%Z -> (0 <= a ÷ b)%Z /\ ((a ÷ b) * b <= a < (a ÷ b) * b + b)%Z)
  /\ ((a <= 0)%Z -> (a ÷ b <= 0)%Z /\ ((a ÷ b) * b - b < a <= (a ÷ b) * b)%Z).
Proof.
  intros Hb. pose proof (Z.quot_rem' a b) as E. split; intros Ha.
  - pose proof (Z.rem_bound_pos a b Ha Hb).
    pose proof (Z.quot_pos a b Ha Hb). split; lia.
  - pose proof (Z.rem_bound_pos_neg a b Hb Ha).
    assert (0 <= (- a) ÷ b)%Z by (apply Z.quot_pos; lia).
    rewrite Z.quot_opp_l in * by lia. split; lia.
Qed.

(** X26. How the recorder rounds.  A sample from -1 up to but not including
    1 is stored as the integer part of 32768 times the sample, which is a
    16-bit integer and, divided by 32768 again, lies less than 1/32768 from
    the sample, on the side of zero.  The sample 1 does not fit: it is
    stored as -32768, the most negative value.  A sample that is not a
    number is stored as 0. *)
Theorem recorder_quantises :
  (forall q : Q,
     (-1 <= q /\ q < 1)%Q ->
     let v := ToInt16 (times_32768 (Some q)) in
     v = truncate (q * (32768 # 1))
     /\ (-32768 <= v <= 32767)%Z
     /\ (q - (1 # 32768) < v # 32768 /\ v # 32768 < q + (1 # 32768))%Q
     /\ ((0 <= q)%Q -> (0 <= v)%Z /\ (v # 32768 <= q)%Q)
     /\ ((q <= 0)%Q -> (v <= 0)%Z /\ (q <= v # 32768)%Q))
  /\ ToInt16 (times_32768 (Some 1%Q)) = (-32768)%Z
  /\ ToInt16 (times_32768 None) = 0%Z.
Proof.
  split; [| split; reflexivity].
  intros [n d] [Hlo Hhi] v. subst v.
  unfold Qle, Qlt in Hlo, Hhi. cbn in Hlo, Hhi.
  cbn [times_32768 ToInt16]. cbv zeta.
  unfold truncate, Qmult. cbn [Qnum Qden].
  rewrite Pos.mul_1_r.
  set (t := (n * 32768 ÷ Z.pos d)%Z).
  assert (Hn : (- Z.pos d <= n < Z.pos d)%Z) by lia.
  destruct (quot_bounds (n * 32768) (Z.pos d) ltac:(lia)) as [Bp Bn].
  fold t in Bp, Bn.
  assert (Ht : (-32768 <= t <= 32767)%Z
               /\ (Z.abs (n * 32768 - t * Z.pos d) < Z.pos d)%Z
               /\ (0 <= n -> 0 <= t /\ t * Z.pos d <= n * 32768)%Z
               /\ (n <= 0 -> t <= 0 /\ n * 32768 <= t * Z.pos d)%Z).
  { destruct (Z.le_gt_cases 0 n) as [H0 | H0].
    - destruct (Bp ltac:(lia)) as [T0 T1].
      assert (t < 32768)%Z
        by (apply (Zmult_lt_reg_r _ _ (Z.pos d)); lia).
      repeat split; try lia.
    - destruct (Bn ltac:(lia)) as [T0 T1].
      assert (-32769 < t)%Z
        by (apply (Zmult_lt_reg_r _ _ (Z.pos d)); lia).
      repeat split; try lia. }
  destruct Ht as (Hr & Habs & Hpos & Hneg).
  assert (Hm : (if (t mod 65536 <? 32768)%Z then (t mod 65536)%Z
                else (t mod 65536 - 65536)%Z) = t).
  { destruct (Z.ltb_spec (t mod 65536) 32768); euclid. }
  rewrite Hm.
  split; [reflexivity |]. split; [exact Hr |].
  unfold Qlt, Qle, Qminus, Qplus, Qopp. cbn.
  repeat split; try nia; intros H; try (apply Hpos; lia); try (apply Hneg; lia).
Qed.
